(** * Student marks manager: a shallow embedding and its properties

    The repository holds two programs with the same five operations:

    - [student_mark_manager.py]: class [StudentMarksManager], which keeps the
      records in a Python list of dicts;
    - [student_mark_manager_mysql.py]: class [StudentMarksManagerDB], which
      keeps them in the MySQL table [students].

    Conventions of the embedding.

    - A record (the dict with keys ['roll_no'], ['name'], ['subject'],
      ['marks']) is the Rocq record [student].  Marks are Python ints, as at
      every call site of the repository ([sample_students]).  A list that
      holds float marks is outside the embedding: what is proved of sums and
      averages is proved of int marks.
    - Python's [None] is [None]; a method that can raise returns a [result].
    - [print] calls are kept as a list of [line]s, one constructor per block of
      the console report; rules and banners carry no data and are dropped.
    - A float is the rational it stands for.  [int / int] rounds the exact
      quotient to the nearest binary64 number, a tie going to the even
      significand, as CPython does: 53 bits of significand, fewer below
      [2^-1022], and [OverflowError] when the rounded quotient reaches
      [2^1024].
    - Of MySQL, the embedding keeps what the statements in the source rely on:
      the UNIQUE constraint on [roll_no] for INSERT, and the meaning of
      [ORDER BY marks DESC LIMIT 1].  The order of rows with equal marks is the
      server's choice, so the sort is a parameter constrained by its
      specification, and so is the row of [COUNT], [SUM] and [AVG].  The
      width of the columns is not in [execute_insert]: what depends on it is
      stated for values that fit the columns ([Spec.fits_columns]).
      [GROUP BY] is left out. *)

From Stdlib Require Import List ZArith QArith Qabs String Bool Lia.
From Stdlib Require Import Permutation Sorted.
Import ListNotations.

Open Scope string_scope.
Open Scope list_scope.
Open Scope Z_scope.

(** ** Exceptions and results *)

Inductive exn : Type :=
| ZeroDivisionError
| ValueError
| KeyError
| AttributeError
| OverflowError.

Inductive result (A : Type) : Type :=
| Ok (a : A)
| Raise (e : exn).

Arguments Ok {A} a.
Arguments Raise {A} e.

Definition bind {A B : Type} (r : result A) (k : A -> result B) : result B :=
  match r with
  | Ok a => k a
  | Raise e => Raise e
  end.

Notation "x <- r ;; k" := (bind r (fun x => k))
  (at level 61, r at next level, right associativity).

(** ** Records and console lines *)

Record student : Type := mkStudent {
  roll_no : Z;
  name : string;
  subject : string;
  marks : Z
}.

(** A number a method returns: [0] is an int, a quotient is a float. *)
Inductive number : Type :=
| PyInt (z : Z)
| PyFloat (q : Q).

Definition number_value (n : number) : Q :=
  match n with
  | PyInt z => inject_Z z
  | PyFloat q => q
  end.

(** Python's [==] on numbers compares values, whatever the types. *)
Definition number_eqb (a b : number) : bool :=
  Qeq_bool (number_value a) (number_value b).

(** What the MySQL connector raises as [mysql.connector.Error]. *)
Inductive Error : Type :=
| DuplicateEntry (key : Z).   (* errno 1062, from [roll_no INT UNIQUE NOT NULL] *)

Inductive line : Type :=
| NoRecordsFound                                   (* "No student records found!" *)
| Added (name : string)                            (* "Added student: ..." *)
| ErrorAdding (name : string) (e : Error)          (* "Error adding student ...: ..." *)
| HighestMarks (top : student)                     (* the four lines of the top student *)
| ClassAverage (count : nat) (total : Z) (average : Q)
| StatsHeader                                      (* "SUBJECT-WISE STATISTICS" *)
| SubjectStats (subject : string) (avg : Q) (max_marks min_marks : Z) (count : nat).

(** What [display_all_students] prints: the message of [line], or the
    table, one row per record. *)
Inductive table_line : Type :=
| Message (l : line)
| TableHeader                                      (* "Roll No  Name  Subject  Marks" *)
| TableRow (record : student).

(** ** The Python built-ins the programs call *)

Module Py.

(** [sum(iterable)]: starts from 0 and adds from left to right. *)
Definition sum (l : list Z) : Z := fold_left Z.add l 0.

(** [max(iterable, key=f)]: the first item is the candidate, a later item
    replaces it only when its key is strictly greater. *)
Fixpoint max_loop {A : Type} (key : A -> Z) (best : A) (l : list A) : A :=
  match l with
  | [] => best
  | x :: rest =>
      if key x >? key best then max_loop key x rest else max_loop key best rest
  end.

Definition max_key {A : Type} (key : A -> Z) (l : list A) : result A :=
  match l with
  | [] => Raise ValueError
  | x :: rest => Ok (max_loop key x rest)
  end.

Definition max (l : list Z) : result Z := max_key (fun z => z) l.

(** [min(iterable)]: a later item replaces the candidate only when it is
    strictly smaller. *)
Fixpoint min_loop (best : Z) (l : list Z) : Z :=
  match l with
  | [] => best
  | x :: rest => if x <? best then min_loop x rest else min_loop best rest
  end.

Definition min (l : list Z) : result Z :=
  match l with
  | [] => Raise ValueError
  | x :: rest => Ok (min_loop x rest)
  end.

Definition len {A : Type} (l : list A) : Z := Z.of_nat (List.length l).

(** The integer nearest to [n / d], for [d] positive; of two integers equally
    near, the even one. *)
Definition round_half_even (n d : Z) : Z :=
  let q := n / d in
  match 2 * (n mod d) ?= d with
  | Lt => q
  | Gt => q + 1
  | Eq => if Z.even q then q else q + 1
  end.

(** The exponent [e] that leaves 53 bits to the significand of [a / d], for
    [a] and [d] positive: the one with [2^52 <= a / (d * 2^e) < 2^53]. *)
Definition normal_exponent (a d : Z) : Z :=
  let e0 := Z.log2 a - Z.log2 d - 53 in
  if a * 2 ^ Z.max 0 (- e0) <? 2 ^ 53 * (d * 2 ^ Z.max 0 e0) then e0 else e0 + 1.

(** The exponent of the float nearest to [a / d]: no float has an exponent
    below [-1074], so a quotient below [2^-1022] keeps fewer bits. *)
Definition float_exponent (a d : Z) : Z := Z.max (normal_exponent a d) (-1074).

(** The float nearest to [n / d]: sign, significand [m] and exponent [e],
    that is [m * 2^e], in lowest terms.  Zero is exact. *)
Definition float_of_ratio (n : Z) (d : positive) : Q :=
  if n =? 0 then 0%Q
  else
    let a := Z.abs n in
    let e := float_exponent a (Z.pos d) in
    let m := round_half_even (a * 2 ^ Z.max 0 (- e)) (Z.pos d * 2 ^ Z.max 0 e) in
    Qred (Qmake (Z.sgn n * m * 2 ^ Z.max 0 e) (Z.to_pos (2 ^ Z.max 0 (- e)))).

Definition float_of_Q (q : Q) : Q := float_of_ratio (Qnum q) (Qden q).

(** Whether a rounded quotient is beyond the greatest float, which is just
    below [2^1024]. *)
Definition float_max_exceeded (x : Q) : bool :=
  Qle_bool (inject_Z (2 ^ 1024)) (Qabs x).

(** [a / b] on ints: the float nearest to the exact quotient, or
    [OverflowError] ("integer division result too large for a float"). *)
Definition truediv (a b : Z) : result Q :=
  if b =? 0 then Raise ZeroDivisionError
  else
    let x := float_of_Q (inject_Z a / inject_Z b)%Q in
    if float_max_exceeded x then Raise OverflowError else Ok x.

(** A dict with string keys: it iterates in the order the keys were first
    inserted, so it is an association list. *)
Definition dict (V : Type) : Type := list (string * V).

(** [k in d] *)
Fixpoint contains {V : Type} (d : dict V) (k : string) : bool :=
  match d with
  | [] => false
  | (k', _) :: d' => if String.eqb k' k then true else contains d' k
  end.

(** [d[k]] *)
Fixpoint getitem {V : Type} (d : dict V) (k : string) : result V :=
  match d with
  | [] => Raise KeyError
  | (k', v) :: d' => if String.eqb k' k then Ok v else getitem d' k
  end.

(** [d[k] = v]: a key that is present keeps its place, a new key goes last. *)
Fixpoint setitem {V : Type} (d : dict V) (k : string) (v : V) : dict V :=
  match d with
  | [] => [(k, v)]
  | (k', v') :: d' =>
      if String.eqb k' k then (k', v) :: d' else (k', v') :: setitem d' k v
  end.

(** [d.items()] *)
Definition items {V : Type} (d : dict V) : list (string * V) := d.

(** [d.keys()] *)
Definition keys {V : Type} (d : dict V) : list string := map fst d.

End Py.

(** ** student_mark_manager.py *)

Module student_mark_manager.

Record StudentMarksManager : Type := mkManager {
  students : list student
}.

(** [__init__] *)
Definition init : StudentMarksManager := {| students := [] |}.

(** [add_student]: builds the dict, appends it, prints. *)
Definition add_student (self : StudentMarksManager)
    (roll_no : Z) (name subject : string) (marks : Z)
    : list line * StudentMarksManager :=
  let student := mkStudent roll_no name subject marks in
  ([Added name], {| students := students self ++ [student] |}).

(** [get_student_count] *)
Definition get_student_count (self : StudentMarksManager) : nat :=
  List.length (students self).

(** [find_student_by_roll_no]: the first record of the list with that roll
    number, [None] when the loop ends. *)
Fixpoint find_loop (l : list student) (roll : Z) : option student :=
  match l with
  | [] => None
  | student :: rest =>
      if roll_no student =? roll then Some student else find_loop rest roll
  end.

Definition find_student_by_roll_no (self : StudentMarksManager) (roll : Z)
    : option student :=
  find_loop (students self) roll.

(** [find_highest_marks] *)
Definition find_highest_marks (self : StudentMarksManager)
    : result (list line * option student) :=
  match students self with
  | [] => Ok ([NoRecordsFound], None)
  | _ :: _ =>
      top_student <- Py.max_key marks (students self) ;;
      Ok ([HighestMarks top_student], Some top_student)
  end.

(** [calculate_average_marks] *)
Definition calculate_average_marks (self : StudentMarksManager)
    : result (list line * number) :=
  match students self with
  | [] => Ok ([NoRecordsFound], PyInt 0)
  | _ :: _ =>
      let total_marks := Py.sum (map marks (students self)) in
      average <- Py.truediv total_marks (Py.len (students self)) ;;
      Ok ([ClassAverage (List.length (students self)) total_marks average],
          PyFloat average)
  end.

(** [get_subject_wise_stats], first loop: group the marks by subject.
    [subjects[subject].append(m)] changes the list the dict holds, which is
    [setitem] on a key that is present. *)
Fixpoint group_loop (subjects : Py.dict (list Z)) (l : list student)
    : result (Py.dict (list Z)) :=
  match l with
  | [] => Ok subjects
  | student :: rest =>
      let subject := subject student in
      let subjects :=
        if negb (Py.contains subjects subject)
        then Py.setitem subjects subject []
        else subjects in
      marks_list <- Py.getitem subjects subject ;;
      group_loop (Py.setitem subjects subject (marks_list ++ [marks student])) rest
  end.

(** What one turn of the second loop computes before it prints. *)
Definition block_values (marks_list : list Z) : result (Q * Z * Z) :=
  avg <- Py.truediv (Py.sum marks_list) (Py.len marks_list) ;;
  max_marks <- Py.max marks_list ;;
  min_marks <- Py.min marks_list ;;
  Ok (avg, max_marks, min_marks).

(** Second loop: one block of the report per item of the dict.  What was
    printed before an exception stays printed, so the lines come with the
    outcome: [Ok tt] when the loop ends, the exception otherwise. *)
Fixpoint report_loop (items : list (string * list Z)) : list line * result unit :=
  match items with
  | [] => ([], Ok tt)
  | (subject, marks_list) :: rest =>
      match block_values marks_list with
      | Raise e => ([], Raise e)
      | Ok (avg, max_marks, min_marks) =>
          let '(out, outcome) := report_loop rest in
          (SubjectStats subject avg max_marks min_marks (List.length marks_list)
             :: out,
           outcome)
      end
  end.

Definition get_subject_wise_stats (self : StudentMarksManager)
    : list line * result unit :=
  match group_loop [] (students self) with
  | Raise e => ([], Raise e)
  | Ok subjects =>
      let '(out, outcome) := report_loop (Py.items subjects) in
      (StatsHeader :: out, outcome)
  end.

(** The records [main] inserts. *)
Definition sample_students : list (Z * string * string * Z) :=
  [ (101, "Alice Johnson", "Mathematics", 95);
    (102, "Bob Smith", "Physics", 87);
    (103, "Carol Davis", "Chemistry", 92);
    (104, "David Wilson", "Mathematics", 78);
    (105, "Emma Brown", "Physics", 89);
    (106, "Frank Miller", "Chemistry", 91);
    (107, "Grace Lee", "Mathematics", 96);
    (108, "Henry Clark", "Physics", 82);
    (109, "Ivy Martinez", "Chemistry", 88) ].

(** The loop of [main] over the records to insert. *)
Fixpoint add_all (sms : StudentMarksManager) (l : list (Z * string * string * Z))
    : list line * StudentMarksManager :=
  match l with
  | [] => ([], sms)
  | (roll_no, name, subject, marks) :: rest =>
      let '(out, sms) := add_student sms roll_no name subject marks in
      let '(out', sms) := add_all sms rest in
      (out ++ out', sms)
  end.

Definition seeded : StudentMarksManager := snd (add_all init sample_students).

(** [display_all_students] *)
Definition display_all_students (self : StudentMarksManager) : list table_line :=
  match students self with
  | [] => [Message NoRecordsFound]
  | _ :: _ => TableHeader :: map TableRow (students self)
  end.

End student_mark_manager.

(** ** student_mark_manager_mysql.py *)

Module student_mark_manager_mysql.

(** The rows of table [students], oldest first.  The program reads the
    columns [roll_no], [name], [subject] and [marks] only. *)
Definition table : Type := list student.

(** [connection] and [cursor] are set together by [connect_and_setup], and
    stay [None] when it fails. *)
Record StudentMarksManagerDB : Type := mkManagerDB {
  connection : option table
}.

(** [cursor.execute("INSERT INTO students ...", values)]: the UNIQUE
    constraint on [roll_no] rejects a value that a row already has, and the
    table is left as it was.  What the server does with a value that a column
    cannot hold ([roll_no INT], [name VARCHAR(100)], [subject VARCHAR(50)],
    [marks DECIMAL(5,2)]) depends on its SQL mode and is not part of this
    definition: a property of an accepted insert is stated for values that
    fit the columns ([Spec.fits_columns]). *)
Definition execute_insert (t : table) (values : student) : Error + table :=
  if existsb (fun row => roll_no row =? roll_no values) t
  then inl (DuplicateEntry (roll_no values))
  else inr (t ++ [values]).

(** [add_student]: [True] after the insert and the commit, [False] when the
    connector raised an [Error].  Without a cursor the attribute access
    raises, and [except Error] does not catch that. *)
Definition add_student (self : StudentMarksManagerDB)
    (roll_no : Z) (name subject : string) (marks : Z)
    : result (list line * bool * StudentMarksManagerDB) :=
  match connection self with
  | None => Raise AttributeError
  | Some t =>
      let values := mkStudent roll_no name subject marks in
      match execute_insert t values with
      | inr t' => Ok ([Added name], true, {| connection := Some t' |})
      | inl e => Ok ([ErrorAdding name e], false, self)
      end
  end.

Section Server.

(** The rows as [ORDER BY marks DESC] returns them. *)
Variable order_by_marks_desc : table -> list student.

(** [find_highest_marks]: [LIMIT 1] and [fetchone] keep the first row. *)
Definition find_highest_marks (self : StudentMarksManagerDB)
    : result (list line * option student) :=
  match connection self with
  | None => Raise AttributeError
  | Some t =>
      match order_by_marks_desc t with
      | [] => Ok ([NoRecordsFound], None)
      | record :: _ => Ok ([HighestMarks record], Some record)
      end
  end.

End Server.

(** What SQL asks of [ORDER BY marks DESC]: the same rows, no row before one
    with greater marks. *)
Definition orders_by_marks_desc (order : table -> list student) : Prop :=
  forall t, Permutation t (order t)
            /\ StronglySorted (fun a b => marks b <= marks a) (order t).

(** One such order: a stable insertion sort. *)
Fixpoint insert_desc (r : student) (l : list student) : list student :=
  match l with
  | [] => [r]
  | x :: l' => if marks x <=? marks r then r :: x :: l' else x :: insert_desc r l'
  end.

Definition stable_sort_desc (t : table) : list student :=
  fold_right insert_desc [] t.

(** The loop of [main] over the records to insert: [success_count] counts the
    calls of [add_student] that returned [True]. *)
Fixpoint add_all (sms_db : StudentMarksManagerDB) (success_count : Z)
    (l : list (Z * string * string * Z))
    : result (list line * Z * StudentMarksManagerDB) :=
  match l with
  | [] => Ok ([], success_count, sms_db)
  | (roll_no, name, subject, marks) :: rest =>
      added <- add_student sms_db roll_no name subject marks ;;
      let '(out, ok, sms_db) := added in
      let success_count := if ok : bool then success_count + 1 else success_count in
      looped <- add_all sms_db success_count rest ;;
      let '(out', success_count, sms_db) := looped in
      Ok (out ++ out', success_count, sms_db)
  end.

Section ServerRows.

(** The rows as [ORDER BY roll_no] returns them. *)
Variable order_by_roll_no : table -> list student.

(** [display_all_students]: [fetchall] gives every row of the result. *)
Definition display_all_students (self : StudentMarksManagerDB)
    : result (list table_line) :=
  match connection self with
  | None => Raise AttributeError
  | Some t =>
      match order_by_roll_no t with
      | [] => Ok [Message NoRecordsFound]
      | record :: records => Ok (TableHeader :: map TableRow (record :: records))
      end
  end.

End ServerRows.

(** What SQL asks of [ORDER BY roll_no]: the same rows, no row before one
    with a smaller roll number. *)
Definition orders_by_roll_no (order : table -> list student) : Prop :=
  forall t, Permutation t (order t)
            /\ StronglySorted (fun a b => roll_no a <= roll_no b) (order t).

(** One such order: an insertion sort. *)
Fixpoint insert_asc (r : student) (l : list student) : list student :=
  match l with
  | [] => [r]
  | x :: l' => if roll_no r <=? roll_no x then r :: x :: l' else x :: insert_asc r l'
  end.

Definition sort_asc (t : table) : list student := fold_right insert_asc [] t.

Section ServerAggregates.

(** The row of [SELECT COUNT( * ), SUM(marks), AVG(marks)]: [None] stands for
    the row [(0, NULL, NULL)] of a table without rows. *)
Variable count_sum_avg : table -> option (Z * Z * Q).

(** [calculate_average_marks]: [float(average)] is the float nearest to the
    decimal the server sent. *)
Definition calculate_average_marks (self : StudentMarksManagerDB)
    : result (list line * number) :=
  match connection self with
  | None => Raise AttributeError
  | Some t =>
      match count_sum_avg t with
      | None => Ok ([NoRecordsFound], PyInt 0)
      | Some (count, total_marks, average) =>
          if count =? 0 then Ok ([NoRecordsFound], PyInt 0)
          else Ok ([ClassAverage (Z.to_nat count) total_marks average],
                   PyFloat (Py.float_of_Q average))
      end
  end.

End ServerAggregates.

End student_mark_manager_mysql.

(** ** The words of the specification *)

Module Spec.

(** sum(marks) / count(marks), exactly. *)
Definition mean (l : list student) : Q :=
  let total := fold_right Z.add 0 (map marks l) in
  let count := Z.of_nat (List.length l) in
  (inject_Z total / inject_Z count)%Q.

(** The tolerance of a float operation: the relative error of rounding to
    53 bits, [2^-53]. *)
Definition tolerance : Q := 1 # Pos.pow 2 53.

(** A quotient that is zero or not below the smallest float with 53 bits,
    [2^-1022]. *)
Definition above_subnormal (q : Q) : Prop :=
  (q == 0 \/ 1 # Pos.pow 2 1022 <= Qabs q)%Q.

(** A quotient of at most [2^1023], half of what no float reaches. *)
Definition below_overflow (q : Q) : Prop :=
  (Qabs q <= inject_Z (2 ^ 1023))%Q.

(** The range of marks in which no average overflows: every mark is at most
    [2^1023] in absolute value. *)
Definition marks_in_range (l : list student) : Prop :=
  Forall (fun r => Z.abs (marks r) <= 2 ^ 1023) l.

(** The number of records up to which no average falls below [2^-1022]
    unless it is zero. *)
Definition count_in_range (l : list student) : Prop :=
  Z.of_nat (List.length l) <= 2 ^ 1022.

(** The values that the columns of table [students] hold as they are:
    [roll_no INT], [name VARCHAR(100)], [subject VARCHAR(50)],
    [marks DECIMAL(5,2)]. *)
Definition fits_columns (r : student) : Prop :=
  - 2 ^ 31 <= roll_no r < 2 ^ 31
  /\ (String.length (name r) <= 100)%nat
  /\ (String.length (subject r) <= 50)%nat
  /\ Z.abs (marks r) <= 999.

(** What SQL asks of the row of [COUNT], [SUM] and [AVG] for the table [t]:
    the number of rows, the sum of the marks, and an average that is a
    decimal within [eps] of the mean; a decimal is zero or well inside the
    range of the floats. *)
Definition answers_count_sum_avg
    (server : list student -> option (Z * Z * Q)) (eps : Q) (t : list student)
    : Prop :=
  match server t with
  | None => t = []
  | Some (count, total_marks, average) =>
      count = Z.of_nat (List.length t)
      /\ total_marks = fold_right Z.add 0 (map marks t)
      /\ (Qabs (average - mean t) <= eps)%Q
      /\ above_subnormal average
      /\ below_overflow average
  end.

(** The decimal with six digits after the point nearest to [q], a tie going
    away from zero. *)
Definition decimal6 (q : Q) : Q :=
  let n := Qnum q * 10 ^ 6 in
  let d := Z.pos (Qden q) in
  Qred (Qmake (Z.sgn n * ((2 * Z.abs n + d) / (2 * d))) (Pos.pow 10 6)).

(** One such server: the average of marks with two digits after the point
    has six. *)
Definition decimal_server (t : list student) : option (Z * Z * Q) :=
  match t with
  | [] => None
  | _ :: _ =>
      Some (Z.of_nat (List.length t), fold_right Z.add 0 (map marks t),
            decimal6 (mean t))
  end.

(** The subjects in the order they are first encountered. *)
Fixpoint first_seen (seen l : list string) : list string :=
  match l with
  | [] => []
  | x :: rest =>
      if existsb (String.eqb x) seen then first_seen seen rest
      else x :: first_seen (seen ++ [x]) rest
  end.

Definition first_encounters (l : list string) : list string := first_seen [] l.

(** Alphabetical order of a list of subjects. *)
Definition alphabetical (l : list string) : Prop :=
  StronglySorted (fun a b => String.leb a b = true) l.

(** The groups a report shows: subject and count of each block. *)
Fixpoint report_groups (out : list line) : list (string * nat) :=
  match out with
  | [] => []
  | SubjectStats subject _ _ _ count :: rest => (subject, count) :: report_groups rest
  | _ :: rest => report_groups rest
  end.

(** The number of marks a dict of groups holds. *)
Definition total (d : Py.dict (list Z)) : nat :=
  list_sum (map (fun kv => List.length (snd kv)) d).

(** A group with at least one mark. *)
Definition nonempty (kv : string * list Z) : Prop := snd kv <> [].

(** The marks of the records of one subject, in the order of the records. *)
Definition marks_of (s : string) (l : list student) : list Z :=
  map marks (filter (fun r => String.eqb (subject r) s) l).

(** sum / count of a list of marks, exactly. *)
Definition mean_of (v : list Z) : Q :=
  let total := fold_right Z.add 0 v in
  let count := Z.of_nat (List.length v) in
  (inject_Z total / inject_Z count)%Q.

(** The marks a dict of groups holds for a subject, none when the subject is
    not a key. *)
Definition group_of (d : Py.dict (list Z)) (s : string) : list Z :=
  match Py.getitem d s with
  | Ok v => v
  | Raise _ => []
  end.

(** The record that the arguments of [add_student] make. *)
Definition record_of (args : Z * string * string * Z) : student :=
  let '(roll_no, name, subject, marks) := args in
  mkStudent roll_no name subject marks.

End Spec.

(** * Properties *)

(** ** [max] with a key *)

Section MaxKey.

Context {A : Type}.
Variable key : A -> Z.

Lemma max_loop_In (l : list A) : forall best,
  Py.max_loop key best l = best \/ In (Py.max_loop key best l) l.
Proof.
  induction l as [|x rest IH]; intros best; simpl.
  - now left.
  - destruct (key x >? key best).
    + destruct (IH x) as [-> | H]; auto.
    + destruct (IH best) as [-> | H]; auto.
Qed.

Lemma max_loop_ge_best (l : list A) : forall best,
  key best <= key (Py.max_loop key best l).
Proof.
  induction l as [|x rest IH]; intros best; simpl.
  - lia.
  - destruct (Z.gtb_spec (key x) (key best)) as [E|E].
    + specialize (IH x). lia.
    + apply IH.
Qed.

Lemma max_loop_ge_all (l : list A) : forall best,
  Forall (fun x => key x <= key (Py.max_loop key best l)) l.
Proof.
  induction l as [|x rest IH]; intros best; simpl; constructor.
  - destruct (Z.gtb_spec (key x) (key best)) as [E|E].
    + apply max_loop_ge_best.
    + pose proof (max_loop_ge_best rest best). lia.
  - destruct (key x >? key best); apply IH.
Qed.

(** The loop stops on the first item whose key is the greatest: what comes
    before it is strictly smaller. *)
Lemma max_loop_first (l : list A) : forall best,
  exists pre post,
    best :: l = pre ++ Py.max_loop key best l :: post
    /\ Forall (fun x => key x < key (Py.max_loop key best l)) pre
    /\ Forall (fun x => key x <= key (Py.max_loop key best l)) post.
Proof.
  induction l as [|x rest IH]; intros best; simpl.
  - exists [], []. repeat split; constructor.
  - destruct (Z.gtb_spec (key x) (key best)) as [E|E].
    + destruct (IH x) as (pre & post & Heq & Hpre & Hpost).
      exists (best :: pre), post. repeat split.
      * simpl. now rewrite Heq.
      * constructor; [|exact Hpre].
        pose proof (max_loop_ge_best rest x). lia.
      * exact Hpost.
    + destruct (IH best) as (pre & post & Heq & Hpre & Hpost).
      destruct pre as [|b pre'].
      * simpl in Heq. injection Heq as Hb Hrest.
        exists [], (x :: rest). repeat split.
        -- simpl. now rewrite <- Hb.
        -- constructor.
        -- constructor; [rewrite <- Hb; exact E | apply max_loop_ge_all].
      * simpl in Heq. injection Heq as Hb Hrest. subst b.
        exists (best :: x :: pre'), post. repeat split.
        -- simpl. do 2 f_equal. exact Hrest.
        -- inversion Hpre as [|? ? Hbest Hpre']; subst.
           constructor; [exact Hbest|]. constructor; [lia | exact Hpre'].
        -- exact Hpost.
Qed.

End MaxKey.

(** ** The server's sort *)

Section StableSort.

Import student_mark_manager_mysql.

Lemma insert_desc_perm (r : student) (l : list student) :
  Permutation (r :: l) (insert_desc r l).
Proof.
  induction l as [|x l' IH]; simpl.
  - apply Permutation_refl.
  - destruct (marks x <=? marks r).
    + apply Permutation_refl.
    + eapply perm_trans; [apply perm_swap|]. now apply perm_skip.
Qed.

Lemma insert_desc_In (r y : student) (l : list student) :
  In y (insert_desc r l) -> y = r \/ In y l.
Proof.
  intros H.
  apply (Permutation_in _ (Permutation_sym (insert_desc_perm r l))) in H.
  destruct H as [H | H]; auto.
Qed.

Lemma insert_desc_sorted (r : student) (l : list student) :
  StronglySorted (fun a b => marks b <= marks a) l ->
  StronglySorted (fun a b => marks b <= marks a) (insert_desc r l).
Proof.
  induction 1 as [|x l' Hs IH Hx]; simpl.
  - repeat constructor.
  - destruct (Z.leb_spec (marks x) (marks r)) as [E | E].
    + constructor; [now constructor|].
      constructor; [exact E|].
      rewrite Forall_forall in Hx |- *. intros y Hy.
      specialize (Hx y Hy). lia.
    + constructor; [exact IH|].
      rewrite Forall_forall in Hx |- *. intros y Hy.
      destruct (insert_desc_In _ _ _ Hy) as [-> | Hy']; [lia | now apply Hx].
Qed.

Lemma stable_sort_desc_orders : orders_by_marks_desc stable_sort_desc.
Proof.
  intros t. unfold stable_sort_desc.
  induction t as [|r t [IHp IHs]]; simpl.
  - split; constructor.
  - split.
    + eapply perm_trans; [apply perm_skip, IHp | apply insert_desc_perm].
    + now apply insert_desc_sorted.
Qed.

(** The first row of any admissible order has the greatest marks. *)
Lemma ordered_head_max (order : table -> list student) (t : table)
    (record : student) (rest : list student) :
  orders_by_marks_desc order ->
  order t = record :: rest ->
  In record t /\ forall r, In r t -> marks r <= marks record.
Proof.
  intros Hord Hhead. destruct (Hord t) as [Hperm Hsorted].
  rewrite Hhead in Hperm, Hsorted. split.
  - apply (Permutation_in _ (Permutation_sym Hperm)). now left.
  - intros r Hr. apply (Permutation_in _ Hperm) in Hr.
    inversion Hsorted as [|? ? _ Hall]; subst.
    destruct Hr as [<- | Hr]; [lia|].
    rewrite Forall_forall in Hall. now apply Hall.
Qed.

Lemma ordered_nonempty (order : table -> list student) (t : table) :
  orders_by_marks_desc order -> t <> [] -> order t <> [].
Proof.
  intros Hord Ht Hnil. destruct (Hord t) as [Hperm _].
  rewrite Hnil in Hperm. apply Permutation_sym, Permutation_nil in Hperm.
  contradiction.
Qed.

End StableSort.

(** ** The record with the highest marks *)

Section Highest.

Import student_mark_manager.

Lemma find_highest_marks_cons (self : StudentMarksManager)
    (x : student) (rest : list student) :
  students self = x :: rest ->
  find_highest_marks self =
    Ok ([HighestMarks (Py.max_loop marks x rest)], Some (Py.max_loop marks x rest)).
Proof.
  intros H. unfold find_highest_marks. now rewrite H.
Qed.

End Highest.

(** C1. For every non-empty store, the record that [find_highest_marks]
    returns has marks greater than or equal to the marks of every record of the
    store: in the list of the in-memory manager, and in the table of the MySQL
    manager for any row order the server may choose for
    [ORDER BY marks DESC]. *)
Theorem highest_marks_dominates :
  (forall self : student_mark_manager.StudentMarksManager,
      student_mark_manager.students self <> [] ->
      exists top,
        student_mark_manager.find_highest_marks self
          = Ok ([HighestMarks top], Some top)
        /\ In top (student_mark_manager.students self)
        /\ forall r, In r (student_mark_manager.students self) ->
                     marks r <= marks top)
  /\
  (forall (order : student_mark_manager_mysql.table -> list student)
          (self : student_mark_manager_mysql.StudentMarksManagerDB)
          (t : student_mark_manager_mysql.table),
      student_mark_manager_mysql.orders_by_marks_desc order ->
      student_mark_manager_mysql.connection self = Some t ->
      t <> [] ->
      exists top,
        student_mark_manager_mysql.find_highest_marks order self
          = Ok ([HighestMarks top], Some top)
        /\ In top t
        /\ forall r, In r t -> marks r <= marks top).
Proof.
  split.
  - intros self Hne.
    destruct (student_mark_manager.students self) as [|x rest] eqn:Hs;
      [contradiction|].
    exists (Py.max_loop marks x rest). split; [|split].
    + now apply find_highest_marks_cons.
    + destruct (max_loop_In marks rest x) as [-> | H]; [now left | now right].
    + intros r [<- | Hr].
      * apply max_loop_ge_best.
      * pose proof (max_loop_ge_all marks rest x) as Hall.
        rewrite Forall_forall in Hall. now apply Hall.
  - intros order self t Hord Hconn Hne.
    unfold student_mark_manager_mysql.find_highest_marks. rewrite Hconn.
    destruct (order t) as [|record rest] eqn:Ho.
    + exfalso. now apply (ordered_nonempty order t Hord Hne).
    + exists record. split; [reflexivity|].
      now apply (ordered_head_max order t record rest).
Qed.

Lemma highest_marks_dominates_witness :
  (student_mark_manager.students student_mark_manager.seeded <> []
   /\ exists top,
        student_mark_manager.find_highest_marks student_mark_manager.seeded
          = Ok ([HighestMarks top], Some top)
        /\ In top (student_mark_manager.students student_mark_manager.seeded)
        /\ forall r, In r (student_mark_manager.students student_mark_manager.seeded) ->
                     marks r <= marks top)
  /\
  (student_mark_manager_mysql.orders_by_marks_desc
     student_mark_manager_mysql.stable_sort_desc
   /\ [mkStudent 101 "A" "Math" 95; mkStudent 102 "B" "Physics" 95] <> []
   /\ exists top,
        student_mark_manager_mysql.find_highest_marks
          student_mark_manager_mysql.stable_sort_desc
          (student_mark_manager_mysql.mkManagerDB
             (Some [mkStudent 101 "A" "Math" 95; mkStudent 102 "B" "Physics" 95]))
          = Ok ([HighestMarks top], Some top)
        /\ In top [mkStudent 101 "A" "Math" 95; mkStudent 102 "B" "Physics" 95]
        /\ forall r, In r [mkStudent 101 "A" "Math" 95; mkStudent 102 "B" "Physics" 95] ->
                     marks r <= marks top).
Proof.
  destruct highest_marks_dominates as [Hmem Hdb]. split.
  - split; [discriminate | apply Hmem; discriminate].
  - split; [exact stable_sort_desc_orders | split; [discriminate|]].
    apply Hdb; [exact stable_sort_desc_orders | reflexivity | discriminate].
Defined.

(** C8. For every non-empty store, [find_highest_marks] returns the first
    record, in the order of the list, among those with the greatest marks:
    the records before it have strictly smaller marks, the records after it
    have marks that are not greater. *)
Theorem highest_marks_first_among_ties :
  forall self : student_mark_manager.StudentMarksManager,
    student_mark_manager.students self <> [] ->
    exists top pre post,
      student_mark_manager.find_highest_marks self
        = Ok ([HighestMarks top], Some top)
      /\ student_mark_manager.students self = pre ++ top :: post
      /\ Forall (fun r => marks r < marks top) pre
      /\ Forall (fun r => marks r <= marks top) post.
Proof.
  intros self Hne.
  destruct (student_mark_manager.students self) as [|x rest] eqn:Hs;
    [contradiction|].
  destruct (max_loop_first marks rest x) as (pre & post & Heq & Hpre & Hpost).
  exists (Py.max_loop marks x rest), pre, post. repeat split; auto.
  now apply find_highest_marks_cons.
Qed.

Lemma highest_marks_first_among_ties_witness :
  let tied := student_mark_manager.mkManager
                [mkStudent 1 "A" "Math" 80; mkStudent 2 "B" "Math" 95;
                 mkStudent 3 "C" "Physics" 95] in
  student_mark_manager.students tied <> []
  /\ exists top pre post,
       student_mark_manager.find_highest_marks tied
         = Ok ([HighestMarks top], Some top)
       /\ student_mark_manager.students tied = pre ++ top :: post
       /\ Forall (fun r => marks r < marks top) pre
       /\ Forall (fun r => marks r <= marks top) post.
Proof.
  split; [discriminate|].
  apply highest_marks_first_among_ties. discriminate.
Defined.

Example highest_marks_tie_example :
  student_mark_manager.find_highest_marks
    (student_mark_manager.mkManager
       [mkStudent 1 "A" "Math" 80; mkStudent 2 "B" "Math" 95;
        mkStudent 3 "C" "Physics" 95])
  = Ok ([HighestMarks (mkStudent 2 "B" "Math" 95)], Some (mkStudent 2 "B" "Math" 95)).
Proof. reflexivity. Qed.

Example highest_marks_seeded :
  student_mark_manager.find_highest_marks student_mark_manager.seeded
  = Ok ([HighestMarks (mkStudent 107 "Grace Lee" "Mathematics" 96)],
        Some (mkStudent 107 "Grace Lee" "Mathematics" 96)).
Proof. reflexivity. Qed.

(** ** Lookup by roll number *)

Section Lookup.

Import student_mark_manager.

Lemma find_loop_app (l : list student) (r : student) (roll : Z) :
  find_loop (l ++ [r]) roll =
    match find_loop l roll with
    | Some old => Some old
    | None => if roll_no r =? roll then Some r else None
    end.
Proof.
  induction l as [|x l' IH]; simpl.
  - reflexivity.
  - destruct (roll_no x =? roll); [reflexivity | exact IH].
Qed.

Lemma find_loop_None (l : list student) (roll : Z) :
  find_loop l roll = None <-> Forall (fun x => roll_no x <> roll) l.
Proof.
  induction l as [|x l' IH]; simpl.
  - split; [constructor | reflexivity].
  - destruct (Z.eqb_spec (roll_no x) roll) as [E | E]; split.
    + discriminate.
    + intros H. inversion H; subst. contradiction.
    + intros H. constructor; [exact E | now apply IH].
    + intros H. inversion H; subst. now apply IH.
Qed.

(** The loop returns the record at the first position that holds the roll
    number. *)
Lemma find_loop_Some (l : list student) (roll : Z) (r : student) :
  find_loop l roll = Some r <->
  exists pre post,
    l = pre ++ r :: post
    /\ roll_no r = roll
    /\ Forall (fun x => roll_no x <> roll) pre.
Proof.
  induction l as [|x l' IH]; simpl.
  - split; [discriminate|].
    intros (pre & post & Heq & _). now destruct pre.
  - destruct (Z.eqb_spec (roll_no x) roll) as [E | E]; split.
    + intros H. injection H as <-. exists [], l'. repeat split; auto.
    + intros (pre & post & Heq & Hr & Hpre).
      destruct pre as [|p pre']; simpl in Heq; injection Heq as Hx Hl.
      * now subst.
      * subst p. inversion Hpre; subst. contradiction.
    + intros H. apply IH in H. destruct H as (pre & post & Heq & Hr & Hpre).
      exists (x :: pre), post. repeat split; auto.
      simpl. now rewrite Heq.
    + intros (pre & post & Heq & Hr & Hpre).
      destruct pre as [|p pre']; simpl in Heq; injection Heq as Hx Hl.
      * subst x. contradiction.
      * apply IH. exists pre', post. repeat split; auto.
        now inversion Hpre.
Qed.

Lemma students_add_student (self : StudentMarksManager)
    (roll : Z) (name subject : string) (marks : Z) :
  students (snd (add_student self roll name subject marks))
  = students self ++ [mkStudent roll name subject marks].
Proof. reflexivity. Qed.

End Lookup.

(** C5, as stated, fails: a store that holds roll number 1 returns the record
    it held, not the record just inserted under the same roll number. *)
Lemma round_trip_fails_on_reused_roll_no :
  let self := student_mark_manager.mkManager [mkStudent 1 "A" "Math" 80] in
  let self' := snd (student_mark_manager.add_student self 1 "B" "Physics" 90) in
  student_mark_manager.find_student_by_roll_no self' 1
    = Some (mkStudent 1 "A" "Math" 80)
  /\ student_mark_manager.find_student_by_roll_no self' 1
    <> Some (mkStudent 1 "B" "Physics" 90).
Proof.
  split; [reflexivity | discriminate].
Qed.

(** C5, amended. For every store that holds no record with the roll number
    of the new record, inserting the record with [add_student] and then calling
    [find_student_by_roll_no] with its roll number returns that exact record. *)
Theorem round_trip_fresh_roll_no :
  forall (self : student_mark_manager.StudentMarksManager)
         (roll : Z) (name subject : string) (marks : Z),
    (forall r, In r (student_mark_manager.students self) -> roll_no r <> roll) ->
    student_mark_manager.find_student_by_roll_no
      (snd (student_mark_manager.add_student self roll name subject marks)) roll
    = Some (mkStudent roll name subject marks).
Proof.
  intros self roll name subject marks Hfresh.
  unfold student_mark_manager.find_student_by_roll_no.
  rewrite students_add_student, find_loop_app.
  replace (student_mark_manager.find_loop (student_mark_manager.students self) roll)
    with (@None student).
  - simpl. now rewrite Z.eqb_refl.
  - symmetry. apply find_loop_None. now apply Forall_forall.
Qed.

Lemma round_trip_fresh_roll_no_witness :
  (forall r, In r (student_mark_manager.students student_mark_manager.seeded) ->
             roll_no r <> 110)
  /\ student_mark_manager.find_student_by_roll_no
       (snd (student_mark_manager.add_student student_mark_manager.seeded
               110 "Jack Hill" "Physics" 77)) 110
     = Some (mkStudent 110 "Jack Hill" "Physics" 77).
Proof.
  assert (H : forall r,
             In r (student_mark_manager.students student_mark_manager.seeded) ->
             roll_no r <> 110).
  { intros r Hr. simpl in Hr.
    repeat (destruct Hr as [<- | Hr]; [discriminate|]). contradiction. }
  split; [exact H|].
  apply round_trip_fresh_roll_no. exact H.
Defined.

(** C10. When several records of the list share a roll number,
    [find_student_by_roll_no] returns the earliest of them: it returns [r]
    exactly when [r] holds the roll number and no record before [r] does.  So
    a record inserted under a roll number that is in use is not the one the
    lookup returns: the lookup still returns the oldest one. *)
Theorem find_returns_earliest :
  (forall (self : student_mark_manager.StudentMarksManager) (roll : Z) (r : student),
      student_mark_manager.find_student_by_roll_no self roll = Some r <->
      exists pre post,
        student_mark_manager.students self = pre ++ r :: post
        /\ roll_no r = roll
        /\ Forall (fun x => roll_no x <> roll) pre)
  /\
  (forall (self : student_mark_manager.StudentMarksManager) (old : student)
          (roll : Z) (name subject : string) (marks : Z),
      student_mark_manager.find_student_by_roll_no self roll = Some old ->
      student_mark_manager.find_student_by_roll_no
        (snd (student_mark_manager.add_student self roll name subject marks)) roll
      = Some old).
Proof.
  split.
  - intros self roll r. apply find_loop_Some.
  - intros self old roll name subject marks Hold.
    unfold student_mark_manager.find_student_by_roll_no in *.
    now rewrite students_add_student, find_loop_app, Hold.
Qed.

Lemma find_returns_earliest_witness :
  let first := mkStudent 7 "A" "Math" 80 in
  let self := student_mark_manager.mkManager
                [mkStudent 5 "Z" "Art" 50; first; mkStudent 7 "B" "Physics" 90] in
  student_mark_manager.find_student_by_roll_no self 7 = Some first
  /\ student_mark_manager.find_student_by_roll_no
       (snd (student_mark_manager.add_student self 7 "C" "Math" 99)) 7
     = Some first.
Proof.
  destruct find_returns_earliest as [Hfirst Hkeep].
  split.
  - apply Hfirst.
    exists [mkStudent 5 "Z" "Art" 50], [mkStudent 7 "B" "Physics" 90].
    repeat split. repeat constructor. discriminate.
  - apply Hkeep. reflexivity.
Defined.

(** C6. [add_student] of the in-memory manager has no failing path: for every
    store and every record it prints its line and appends the record, so the
    store afterwards holds the prior records and the new one, also when the
    roll number is already in the store; the number of records with that roll
    number grows by one. *)
Theorem add_student_appends :
  forall (self : student_mark_manager.StudentMarksManager)
         (roll : Z) (name subject : string) (marks : Z),
    exists self',
      student_mark_manager.add_student self roll name subject marks
        = ([Added name], self')
      /\ student_mark_manager.students self'
         = student_mark_manager.students self ++ [mkStudent roll name subject marks]
      /\ (forall r, In r (student_mark_manager.students self) ->
                    In r (student_mark_manager.students self'))
      /\ In (mkStudent roll name subject marks) (student_mark_manager.students self')
      /\ student_mark_manager.get_student_count self'
         = S (student_mark_manager.get_student_count self)
      /\ List.length (filter (fun r => roll_no r =? roll)
                        (student_mark_manager.students self'))
         = S (List.length (filter (fun r => roll_no r =? roll)
                             (student_mark_manager.students self))).
Proof.
  intros self roll name subject marks.
  eexists. split; [reflexivity|]. simpl. repeat split.
  - intros r Hr. apply in_or_app. now left.
  - apply in_or_app. right. now left.
  - unfold student_mark_manager.get_student_count. simpl.
    rewrite length_app. simpl. lia.
  - rewrite filter_app, length_app. simpl. rewrite Z.eqb_refl. simpl. lia.
Qed.

(** ** Float division *)

Section FloatDivision.

Lemma round_half_even_spec (n d : Z) :
  0 < d -> Z.abs (2 * (Py.round_half_even n d * d) - 2 * n) <= d.
Proof.
  intros Hd. unfold Py.round_half_even.
  pose proof (Z.div_mod n d ltac:(lia)) as Hn.
  pose proof (Z.mod_pos_bound n d Hd) as Hr.
  set (q := n / d) in *. set (r := n mod d) in *.
  assert (Hq : q * d = n - r) by lia.
  destruct (Z.compare_spec (2 * r) d) as [E | E | E].
  - destruct (Z.even q); rewrite ?Z.mul_add_distr_r, Hq; lia.
  - rewrite Hq. lia.
  - rewrite Z.mul_add_distr_r, Hq. lia.
Qed.

Lemma round_half_even_nonneg (n d : Z) :
  0 <= n -> 0 < d -> 0 <= Py.round_half_even n d.
Proof.
  intros Hn Hd. unfold Py.round_half_even.
  pose proof (Z.div_pos n d Hn Hd).
  destruct (2 * (n mod d) ?= d); [destruct (Z.even (n / d))| |]; lia.
Qed.

(** The normal exponent normalises the quotient: [2^52 <= a / (d * 2^e)]. *)
Lemma normal_exponent_normal (a d : Z) :
  0 < a -> 0 < d ->
  2 ^ 52 * (d * 2 ^ Z.max 0 (Py.normal_exponent a d))
  <= a * 2 ^ Z.max 0 (- Py.normal_exponent a d).
Proof.
  intros Ha Hd. unfold Py.normal_exponent.
  destruct (Z.log2_spec a Ha) as [Hla _].
  destruct (Z.log2_spec d Hd) as [_ Hld].
  pose proof (Z.log2_nonneg a) as Hla0.
  pose proof (Z.log2_nonneg d) as Hld0.
  set (la := Z.log2 a) in *. set (ld := Z.log2 d) in *.
  set (e0 := la - ld - 53).
  destruct (Z.ltb_spec (a * 2 ^ Z.max 0 (- e0)) (2 ^ 53 * (d * 2 ^ Z.max 0 e0)))
    as [_ | Hbig].
  - destruct (Z.le_gt_cases 0 e0) as [He | He].
    + rewrite (Z.max_r 0 e0), (Z.max_l 0 (- e0)) by lia.
      rewrite Z.pow_0_r, Z.mul_1_r.
      assert (H : 2 ^ la = 2 ^ (ld + 1) * (2 ^ 52 * 2 ^ e0)).
      { rewrite <- !Z.pow_add_r by lia. f_equal. unfold e0. lia. }
      assert (Hp : 0 < 2 ^ 52 * 2 ^ e0)
        by (apply Z.mul_pos_pos; apply Z.pow_pos_nonneg; lia).
      nia.
    + rewrite (Z.max_l 0 e0), (Z.max_r 0 (- e0)) by lia.
      rewrite Z.pow_0_r, Z.mul_1_r.
      assert (H : 2 ^ la * 2 ^ (- e0) = 2 ^ 52 * 2 ^ (ld + 1)).
      { rewrite <- !Z.pow_add_r by lia. f_equal. unfold e0. lia. }
      assert (Hp : 0 < 2 ^ (- e0)) by (apply Z.pow_pos_nonneg; lia).
      nia.
  - destruct (Z.le_gt_cases 0 e0) as [He | He].
    + rewrite (Z.max_r 0 e0), (Z.max_l 0 (- e0)) in Hbig by lia.
      rewrite (Z.max_r 0 (e0 + 1)), (Z.max_l 0 (- (e0 + 1))) by lia.
      rewrite Z.pow_add_r, Z.pow_1_r by lia.
      rewrite Z.pow_0_r, Z.mul_1_r in *.
      replace (2 ^ 53) with (2 ^ 52 * 2) in Hbig by reflexivity. lia.
    + rewrite (Z.max_l 0 e0), (Z.max_r 0 (- e0)) in Hbig by lia.
      rewrite (Z.max_l 0 (e0 + 1)), (Z.max_r 0 (- (e0 + 1))) by lia.
      rewrite Z.pow_0_r, Z.mul_1_r in *.
      replace (- e0) with (- (e0 + 1) + 1) in Hbig by lia.
      rewrite Z.pow_add_r, Z.pow_1_r in Hbig by lia.
      replace (2 ^ 53) with (2 ^ 52 * 2) in Hbig by reflexivity. lia.
Qed.

(** And it leaves 53 bits to the significand: [a / (d * 2^e) < 2^53]. *)
Lemma normal_exponent_bounded (a d : Z) :
  0 < a -> 0 < d ->
  a * 2 ^ Z.max 0 (- Py.normal_exponent a d)
  < 2 ^ 53 * (d * 2 ^ Z.max 0 (Py.normal_exponent a d)).
Proof.
  intros Ha Hd. unfold Py.normal_exponent.
  destruct (Z.log2_spec a Ha) as [_ Hla].
  destruct (Z.log2_spec d Hd) as [Hld _].
  pose proof (Z.log2_nonneg a) as Hla0.
  pose proof (Z.log2_nonneg d) as Hld0.
  set (la := Z.log2 a) in *. set (ld := Z.log2 d) in *.
  set (e0 := la - ld - 53).
  destruct (Z.ltb_spec (a * 2 ^ Z.max 0 (- e0)) (2 ^ 53 * (d * 2 ^ Z.max 0 e0)))
    as [Hlt | _]; [exact Hlt|].
  destruct (Z.le_gt_cases 0 (e0 + 1)) as [He | He].
  - rewrite (Z.max_r 0 (e0 + 1)), (Z.max_l 0 (- (e0 + 1))) by lia.
    rewrite Z.pow_0_r, Z.mul_1_r.
    assert (H : 2 ^ (la + 1) = 2 ^ 53 * 2 ^ (e0 + 1) * 2 ^ ld).
    { rewrite <- !Z.pow_add_r by lia. f_equal. unfold e0. lia. }
    assert (Hp : 0 < 2 ^ 53 * 2 ^ (e0 + 1))
      by (apply Z.mul_pos_pos; apply Z.pow_pos_nonneg; lia).
    nia.
  - rewrite (Z.max_l 0 (e0 + 1)), (Z.max_r 0 (- (e0 + 1))) by lia.
    rewrite Z.pow_0_r, Z.mul_1_r.
    assert (H : 2 ^ (la + 1) * 2 ^ (- (e0 + 1)) = 2 ^ 53 * 2 ^ ld).
    { rewrite <- !Z.pow_add_r by lia. f_equal. unfold e0. lia. }
    assert (Hp : 0 < 2 ^ (- (e0 + 1))) by (apply Z.pow_pos_nonneg; lia).
    nia.
Qed.

(** A quotient of at least [2^-1022] has its exponent in the normal range. *)
Lemma normal_exponent_in_range (a d : Z) :
  0 < a -> 0 < d -> d <= a * 2 ^ 1022 -> -1074 <= Py.normal_exponent a d.
Proof.
  intros Ha Hd Hlow.
  destruct (Z.le_gt_cases (-1074) (Py.normal_exponent a d)) as [H | H]; [exact H|].
  exfalso.
  pose proof (normal_exponent_bounded a d Ha Hd) as Hb.
  set (e := Py.normal_exponent a d) in *.
  rewrite (Z.max_l 0 e), (Z.max_r 0 (- e)) in Hb by lia.
  rewrite Z.pow_0_r, Z.mul_1_r in Hb.
  replace (- e) with ((- e - 1075) + 1022 + 53) in Hb by lia.
  rewrite !Z.pow_add_r in Hb by lia.
  assert (Hp : 1 <= 2 ^ (- e - 1075)).
  { change 1 with (2 ^ 0). apply Z.pow_le_mono_r; lia. }
  set (X := 2 ^ (- e - 1075)) in *. set (L := 2 ^ 1022) in *. set (K := 2 ^ 53) in *.
  assert (HK : 0 < K) by reflexivity.
  assert (a * L * K <= a * (X * L * K)).
  { assert (0 <= a * L * K)
      by (apply Z.mul_nonneg_nonneg; [|lia];
          apply Z.mul_nonneg_nonneg; [lia | unfold L; lia]).
    nia. }
  nia.
Qed.

(** The significand [m] that [a / d] gets with the exponent of the float,
    normal or not: it is the nearest integer; it has 53 bits when the
    quotient is at least [2^-1022]; and a quotient of at most [2^1023] stays
    below [2^1024]. *)
Lemma float_parts (a d : Z) :
  0 < a -> 0 < d ->
  let e := Py.float_exponent a d in
  let P := 2 ^ Z.max 0 e in
  let R := 2 ^ Z.max 0 (- e) in
  let m := Py.round_half_even (a * R) (d * P) in
  0 < P /\ 0 < R /\ 0 <= m
  /\ Z.abs (2 * (m * (d * P)) - 2 * (a * R)) <= d * P
  /\ (d <= a * 2 ^ 1022 -> 2 ^ 52 * (d * P) <= a * R)
  /\ (a <= 2 ^ 1023 * d -> m * P < 2 ^ 1024 * R).
Proof.
  intros Ha Hd e P R m.
  assert (HP : 0 < P) by (apply Z.pow_pos_nonneg; lia).
  assert (HR : 0 < R) by (apply Z.pow_pos_nonneg; lia).
  assert (HD : 0 < d * P) by lia.
  assert (HN : 0 <= a * R) by lia.
  pose proof (round_half_even_spec (a * R) (d * P) HD) as Hm.
  pose proof (round_half_even_nonneg (a * R) (d * P) HN HD) as Hm0.
  fold m in Hm, Hm0.
  split; [exact HP|]. split; [exact HR|]. split; [exact Hm0|]. split; [exact Hm|].
  pose proof (normal_exponent_normal a d Ha Hd) as Hnorm.
  pose proof (normal_exponent_bounded a d Ha Hd) as Hbound.
  split.
  - intros Hlow.
    pose proof (normal_exponent_in_range a d Ha Hd Hlow) as Hrange.
    unfold P, R, e, Py.float_exponent.
    rewrite (Z.max_l (Py.normal_exponent a d) (-1074)) by lia. exact Hnorm.
  - intros Hhigh.
    destruct (Z.le_gt_cases (-1074) (Py.normal_exponent a d)) as [Hrange | Hrange].
    + assert (He : e = Py.normal_exponent a d)
        by (unfold e, Py.float_exponent; lia).
      rewrite <- He in Hnorm. fold P R in Hnorm.
      assert (H1 : m * (d * P) * 2 ^ 53 <= a * R * (2 ^ 53 + 1)).
      { replace (2 ^ 53) with (2 ^ 52 * 2) at 1 by reflexivity. lia. }
      assert (H2 : a * R * (2 ^ 53 + 1) <= 2 ^ 1023 * d * R * (2 ^ 53 + 1)).
      { apply Z.mul_le_mono_nonneg_r; [lia|].
        apply Z.mul_le_mono_nonneg_r; lia. }
      assert (H3 : (m * P) * (d * 2 ^ 53) < (2 ^ 1024 * R) * (d * 2 ^ 53)).
      { replace ((m * P) * (d * 2 ^ 53)) with (m * (d * P) * 2 ^ 53) by ring.
        eapply Z.le_lt_trans; [exact H1|].
        eapply Z.le_lt_trans; [exact H2|].
        replace (2 ^ 1023 * d * R * (2 ^ 53 + 1))
          with ((d * R) * (2 ^ 1023 * (2 ^ 53 + 1))) by ring.
        replace (2 ^ 1024 * R * (d * 2 ^ 53))
          with ((d * R) * (2 ^ 1024 * 2 ^ 53)) by ring.
        apply Z.mul_lt_mono_pos_l; [lia|]. reflexivity. }
      apply Z.mul_lt_mono_pos_r in H3; [exact H3|]. lia.
    + assert (He : e = -1074) by (unfold e, Py.float_exponent; lia).
      set (en := Py.normal_exponent a d) in *.
      rewrite (Z.max_l 0 en), (Z.max_r 0 (- en)) in Hbound by lia.
      rewrite Z.pow_0_r, Z.mul_1_r in Hbound.
      assert (HP1 : P = 1) by (unfold P; rewrite He; reflexivity).
      assert (HR1 : R = 2 ^ 1074) by (unfold R; rewrite He; reflexivity).
      replace (- en) with ((- en - 1075) + 1075) in Hbound by lia.
      rewrite Z.pow_add_r in Hbound by lia.
      assert (Hx : 1 <= 2 ^ (- en - 1075)).
      { change 1 with (2 ^ 0). apply Z.pow_le_mono_r; lia. }
      set (X := 2 ^ (- en - 1075)) in *.
      rewrite HP1, Z.mul_1_r in Hm. rewrite HP1, Z.mul_1_r.
      assert (Ha2 : a * 2 ^ 1075 < 2 ^ 53 * d).
      { eapply Z.le_lt_trans; [|exact Hbound].
        rewrite Z.mul_assoc. apply Z.mul_le_mono_nonneg_r; [lia|]. nia. }
      replace (2 ^ 1075) with (2 ^ 1074 * 2) in Ha2 by reflexivity.
      rewrite <- HR1 in Ha2.
      replace (2 ^ 53) with (2 ^ 52 * 2) in Ha2 by reflexivity.
      assert (Hm2 : m <= 2 ^ 52).
      { assert (2 * (m * d) < (2 * 2 ^ 52 + 1) * d) by lia.
        assert (2 * m < 2 * 2 ^ 52 + 1) by nia. lia. }
      eapply Z.le_lt_trans; [exact Hm2|].
      assert (1 <= R) by lia.
      assert (2 ^ 52 < 2 ^ 1024) by reflexivity. nia.
Qed.

Example float_third : Py.float_of_Q (1 # 3) = 6004799503160661 # 18014398509481984.
Proof. reflexivity. Qed.

Example float_tie_to_even :
  Py.float_of_Q (inject_Z (2 ^ 53 + 1)) = inject_Z (2 ^ 53)
  /\ Py.float_of_Q (inject_Z (2 ^ 53 + 3)) = inject_Z (2 ^ 53 + 4).
Proof. split; reflexivity. Qed.

(** Below [2^-1022] the floats are [2^-1074] apart. *)
Example float_below_normal :
  Py.float_of_Q (3 # Pos.pow 2 1075) = 1 # Pos.pow 2 1073
  /\ Py.float_of_Q (1 # Pos.pow 2 1075) = 0%Q.
Proof. split; reflexivity. Qed.

Example truediv_overflow :
  Py.truediv (2 ^ 1024) 1 = Raise OverflowError
  /\ Py.truediv (2 ^ 1024 - 2 ^ 970) 1 = Raise OverflowError
  /\ Py.truediv (2 ^ 1024 - 2 ^ 970 - 1) 1 = Ok (inject_Z (2 ^ 1024 - 2 ^ 971)).
Proof. repeat split; reflexivity. Qed.

Lemma above_subnormal_ratio (n : Z) (d : positive) :
  Spec.above_subnormal (n # d) -> n = 0 \/ Z.pos d <= Z.abs n * 2 ^ 1022.
Proof.
  intros [H | H].
  - left. unfold Qeq in H. simpl in H. lia.
  - right. unfold Qle, Qabs in H. cbn [Qnum Qden] in H.
    change (Z.pos (2 ^ 1022)) with (2 ^ 1022) in H. lia.
Qed.

Lemma below_overflow_ratio (n : Z) (d : positive) :
  Spec.below_overflow (n # d) -> Z.abs n <= 2 ^ 1023 * Z.pos d.
Proof.
  unfold Spec.below_overflow, Qle, Qabs, inject_Z. cbn [Qnum Qden]. lia.
Qed.

Lemma abs_signed (n x y : Z) :
  n <> 0 -> Z.abs (Z.sgn n * x + - n * y) = Z.abs (x - Z.abs n * y).
Proof.
  intros Hn. destruct n as [|p|p]; [contradiction| |]; cbn [Z.sgn Z.abs].
  - f_equal. ring.
  - rewrite <- Z.abs_opp. f_equal. change (Z.neg p) with (- Z.pos p). ring.
Qed.

(** Rounding to a float moves a quotient that is zero or not below
    [2^-1022] by at most [2^-53] of itself. *)
Lemma float_of_ratio_tolerance (n : Z) (d : positive) :
  Spec.above_subnormal (n # d) ->
  (Qabs (Py.float_of_ratio n d - (n # d)) <= Spec.tolerance * Qabs (n # d))%Q.
Proof.
  intros Hlow. apply above_subnormal_ratio in Hlow.
  unfold Py.float_of_ratio, Spec.tolerance.
  destruct (Z.eqb_spec n 0) as [-> | Hn].
  - unfold Qle. simpl. lia.
  - destruct Hlow as [Hlow | Hlow]; [contradiction|].
    assert (Ha : 0 < Z.abs n) by lia.
    destruct (float_parts (Z.abs n) (Z.pos d) Ha (Pos2Z.is_pos d))
      as (HP & HR & Hm0 & Hm & Hnorm & _).
    specialize (Hnorm Hlow).
    set (a := Z.abs n) in *.
    set (e := Py.float_exponent a (Z.pos d)) in *.
    set (P := 2 ^ Z.max 0 e) in *. set (R := 2 ^ Z.max 0 (- e)) in *.
    set (m := Py.round_half_even (a * R) (Z.pos d * P)) in *.
    rewrite Qred_correct.
    unfold Qle, Qabs, Qminus, Qplus, Qopp, Qmult. cbn [Qnum Qden].
    rewrite !Pos2Z.inj_mul, (Z2Pos.id R HR).
    change (Z.pos (2 ^ 53)) with (2 ^ 53). rewrite Z.mul_1_l. fold a.
    replace (Z.sgn n * m * P * Z.pos d) with (Z.sgn n * (m * (Z.pos d * P))) by ring.
    rewrite (abs_signed n _ R Hn). fold a.
    assert (Hd : 0 < Z.pos d) by lia.
    assert (Hcore : Z.abs (m * (Z.pos d * P) - a * R) * 2 ^ 53 <= a * R).
    { replace (2 ^ 53) with (2 ^ 52 * 2) by reflexivity. lia. }
    nia.
Qed.

Lemma float_of_Q_tolerance (q : Q) :
  Spec.above_subnormal q ->
  (Qabs (Py.float_of_Q q - q) <= Spec.tolerance * Qabs q)%Q.
Proof. destruct q as [n d]. apply float_of_ratio_tolerance. Qed.

(** The float of a quotient of at most [2^1023] is below [2^1024]. *)
Lemma float_of_ratio_no_overflow (n : Z) (d : positive) :
  Spec.below_overflow (n # d) ->
  Py.float_max_exceeded (Py.float_of_ratio n d) = false.
Proof.
  intros Hhigh. apply below_overflow_ratio in Hhigh.
  unfold Py.float_max_exceeded.
  destruct (Qle_bool (inject_Z (2 ^ 1024)) (Qabs (Py.float_of_ratio n d))) eqn:E;
    [|reflexivity].
  exfalso. apply Qle_bool_iff in E. revert E.
  unfold Py.float_of_ratio.
  destruct (Z.eqb_spec n 0) as [-> | Hn].
  - unfold Qle. simpl. lia.
  - assert (Ha : 0 < Z.abs n) by lia.
    destruct (float_parts (Z.abs n) (Z.pos d) Ha (Pos2Z.is_pos d))
      as (HP & HR & Hm0 & _ & _ & Hbig).
    specialize (Hbig Hhigh).
    set (a := Z.abs n) in *.
    set (e := Py.float_exponent a (Z.pos d)) in *.
    set (P := 2 ^ Z.max 0 e) in *. set (R := 2 ^ Z.max 0 (- e)) in *.
    set (m := Py.round_half_even (a * R) (Z.pos d * P)) in *.
    rewrite Qred_correct.
    unfold Qle, Qabs, inject_Z. cbn [Qnum Qden].
    rewrite (Z2Pos.id R HR), Z.mul_1_r.
    assert (Habs : Z.abs (Z.sgn n * m * P) = m * P).
    { rewrite !Z.abs_mul, (Z.abs_eq m Hm0), (Z.abs_eq P) by lia.
      destruct n; [contradiction| |]; cbn [Z.sgn Z.abs]; ring. }
    lia.
Qed.

Lemma float_of_Q_no_overflow (q : Q) :
  Spec.below_overflow q -> Py.float_max_exceeded (Py.float_of_Q q) = false.
Proof. destruct q as [n d]. apply float_of_ratio_no_overflow. Qed.

Lemma len_nonzero {A : Type} (x : A) (l : list A) : (Py.len (x :: l) =? 0) = false.
Proof. apply Z.eqb_neq. unfold Py.len. simpl List.length. lia. Qed.

(** [a / b] either overflows or is the float of the quotient. *)
Lemma truediv_cases (a b : Z) :
  b <> 0 ->
  Py.truediv a b = Raise OverflowError
  \/ Py.truediv a b = Ok (Py.float_of_Q (inject_Z a / inject_Z b)).
Proof.
  intros Hb. unfold Py.truediv.
  destruct (Z.eqb_spec b 0) as [E | _]; [contradiction|].
  destruct (Py.float_max_exceeded _); [now left | now right].
Qed.

Lemma truediv_in_range (a b : Z) :
  b <> 0 ->
  Spec.below_overflow (inject_Z a / inject_Z b) ->
  Py.truediv a b = Ok (Py.float_of_Q (inject_Z a / inject_Z b)).
Proof.
  intros Hb Hhigh. unfold Py.truediv.
  destruct (Z.eqb_spec b 0) as [E | _]; [contradiction|].
  now rewrite (float_of_Q_no_overflow _ Hhigh).
Qed.

(** A quotient of ints by a count of at most [2^1022] is zero or at least
    [2^-1022]. *)
Lemma quotient_above_subnormal (s c : Z) :
  0 < c -> c <= 2 ^ 1022 -> Spec.above_subnormal (inject_Z s / inject_Z c).
Proof.
  intros Hc Hle. destruct c as [|p|p]; try lia.
  unfold Spec.above_subnormal.
  destruct (Z.eq_dec s 0) as [-> | Hs].
  - left. reflexivity.
  - right. unfold Qle, Qabs, Qdiv, Qmult, Qinv, inject_Z. cbn [Qnum Qden].
    rewrite Z.mul_1_r, Z.mul_1_l. change (Z.pos (2 ^ 1022)) with (2 ^ 1022).
    change (Z.pos (1 * p)) with (Z.pos p).
    assert (1 <= Z.abs s) by lia. nia.
Qed.

Lemma quotient_below_overflow (s c : Z) :
  0 < c -> Z.abs s <= 2 ^ 1023 * c ->
  Spec.below_overflow (inject_Z s / inject_Z c).
Proof.
  intros Hc Hle. destruct c as [|p|p]; try lia.
  unfold Spec.below_overflow, Qle, Qabs, Qdiv, Qmult, Qinv, inject_Z.
  cbn [Qnum Qden]. rewrite !Z.mul_1_r.
  change (Z.pos (1 * p)) with (Z.pos p). exact Hle.
Qed.

Lemma sum_abs_bound (B : Z) (v : list Z) :
  Forall (fun m => Z.abs m <= B) v ->
  Z.abs (fold_right Z.add 0 v) <= B * Z.of_nat (List.length v).
Proof.
  induction 1 as [|m v' Hm Hv IH]; simpl List.length; simpl fold_right.
  - lia.
  - rewrite Nat2Z.inj_succ. lia.
Qed.

End FloatDivision.

(** ** The class average *)

Section Average.

Import student_mark_manager.

Lemma fold_left_add (l : list Z) : forall a,
  fold_left Z.add l a = a + fold_right Z.add 0 l.
Proof.
  induction l as [|x l' IH]; intros a; simpl.
  - lia.
  - rewrite IH. lia.
Qed.

(** Adding from the left, as [sum] does, gives the sum of the list. *)
Lemma sum_fold_right (l : list Z) : Py.sum l = fold_right Z.add 0 l.
Proof. unfold Py.sum. now rewrite fold_left_add. Qed.

(** On a list that is not empty, the method is the division and the report
    of its result. *)
Lemma calculate_average_marks_cons
    (self : StudentMarksManager) (x : student) (rest : list student) :
  students self = x :: rest ->
  calculate_average_marks self =
    (average <- Py.truediv (fold_right Z.add 0 (map marks (students self)))
                  (Z.of_nat (List.length (students self))) ;;
     Ok ([ClassAverage (List.length (students self))
            (fold_right Z.add 0 (map marks (students self))) average],
         PyFloat average)).
Proof.
  intros H. unfold calculate_average_marks. rewrite H.
  now rewrite sum_fold_right.
Qed.

Lemma mean_above_subnormal (l : list student) :
  l <> [] -> Spec.count_in_range l -> Spec.above_subnormal (Spec.mean l).
Proof.
  intros Hne Hcount. unfold Spec.mean. apply quotient_above_subnormal.
  - destruct l; [contradiction | simpl List.length; lia].
  - exact Hcount.
Qed.

Lemma mean_below_overflow (l : list student) :
  l <> [] -> Spec.marks_in_range l -> Spec.below_overflow (Spec.mean l).
Proof.
  intros Hne Hmarks. unfold Spec.mean. apply quotient_below_overflow.
  - destruct l; [contradiction | simpl List.length; lia].
  - rewrite <- (length_map marks l). apply sum_abs_bound.
    apply Forall_map. exact Hmarks.
Qed.

(** The float of a decimal that is within [eps] of the mean. *)
Lemma float_of_decimal_near (average mean eps : Q) :
  (Qabs (average - mean) <= eps)%Q ->
  Spec.above_subnormal average ->
  (Qabs (Py.float_of_Q average - mean)
   <= eps + Spec.tolerance * (Qabs mean + eps))%Q.
Proof.
  intros Hnear Hlow.
  pose proof (float_of_Q_tolerance average Hlow) as Htol.
  assert (Habs : (Qabs average <= Qabs mean + eps)%Q).
  { setoid_replace average with (mean + (average - mean))%Q by ring.
    eapply Qle_trans; [apply Qabs_triangle|].
    apply Qplus_le_compat; [apply Qle_refl | exact Hnear]. }
  setoid_replace (Py.float_of_Q average - mean)%Q
    with ((average - mean) + (Py.float_of_Q average - average))%Q by ring.
  eapply Qle_trans; [apply Qabs_triangle|].
  apply Qplus_le_compat; [exact Hnear|].
  eapply Qle_trans; [exact Htol|].
  apply Qmult_le_l; [reflexivity | exact Habs].
Qed.

End Average.

(** C2, as stated, fails: the marks of a record can be an int that is too
    large for a float, and then [calculate_average_marks] raises
    [OverflowError] at the division instead of returning the mean. *)
Lemma average_overflows :
  student_mark_manager.calculate_average_marks
    (student_mark_manager.mkManager [mkStudent 1 "A" "Math" (2 ^ 1100)])
  = Raise OverflowError.
Proof. reflexivity. Qed.

(** C2, amended.  For int marks.  In memory, for every non-empty list of at
    most [2^1022] records, [calculate_average_marks] either raises
    [OverflowError] or returns the arithmetic mean sum(marks)/count(marks) to
    within the tolerance of the float division, [2^-53] of the mean; it
    returns when every mark is at most [2^1023] in absolute value.  With
    MySQL, on every non-empty table it returns the float nearest to the
    average the server sends: when that is within [eps] of the mean, the
    result is within [eps] and the tolerance of the float. *)
Theorem average_is_mean_within_tolerance :
  (forall self : student_mark_manager.StudentMarksManager,
      student_mark_manager.students self <> [] ->
      Spec.count_in_range (student_mark_manager.students self) ->
      (student_mark_manager.calculate_average_marks self = Raise OverflowError
       \/ exists out avg,
            student_mark_manager.calculate_average_marks self
              = Ok (out, PyFloat avg)
            /\ (Qabs (avg - Spec.mean (student_mark_manager.students self))
                <= Spec.tolerance
                   * Qabs (Spec.mean (student_mark_manager.students self)))%Q)
      /\ (Spec.marks_in_range (student_mark_manager.students self) ->
          exists out avg,
            student_mark_manager.calculate_average_marks self
              = Ok (out, PyFloat avg)
            /\ (Qabs (avg - Spec.mean (student_mark_manager.students self))
                <= Spec.tolerance
                   * Qabs (Spec.mean (student_mark_manager.students self)))%Q))
  /\
  (forall (server : student_mark_manager_mysql.table -> option (Z * Z * Q))
          (eps : Q)
          (self : student_mark_manager_mysql.StudentMarksManagerDB)
          (t : student_mark_manager_mysql.table),
      student_mark_manager_mysql.connection self = Some t ->
      t <> [] ->
      Spec.answers_count_sum_avg server eps t ->
      exists out avg,
        student_mark_manager_mysql.calculate_average_marks server self
          = Ok (out, PyFloat avg)
        /\ (Qabs (avg - Spec.mean t)
            <= eps + Spec.tolerance * (Qabs (Spec.mean t) + eps))%Q).
Proof.
  split.
  - intros self Hne Hcount.
    destruct (student_mark_manager.students self) as [|x rest] eqn:Hs;
      [contradiction|].
    rewrite (calculate_average_marks_cons self x rest Hs), Hs.
    pose proof (mean_above_subnormal (x :: rest) Hne Hcount) as Hlow.
    assert (Hlen : Z.of_nat (List.length (x :: rest)) <> 0)
      by (simpl List.length; lia).
    split.
    + destruct (truediv_cases (fold_right Z.add 0 (map marks (x :: rest)))
                  (Z.of_nat (List.length (x :: rest))) Hlen) as [-> | ->].
      * now left.
      * right. eexists. eexists. split; [reflexivity|].
        now apply float_of_Q_tolerance.
    + intros Hmarks.
      rewrite (truediv_in_range _ _ Hlen (mean_below_overflow _ Hne Hmarks)).
      eexists. eexists. split; [reflexivity|].
      now apply float_of_Q_tolerance.
  - intros server eps self t Hconn Hne Hanswer.
    unfold student_mark_manager_mysql.calculate_average_marks. rewrite Hconn.
    unfold Spec.answers_count_sum_avg in Hanswer.
    destruct (server t) as [[[count total_marks] average]|]; [|contradiction].
    destruct Hanswer as (Hcount & _ & Hnear & Hlow & _).
    destruct (Z.eqb_spec count 0) as [E | _].
    + destruct t; [contradiction | simpl List.length in Hcount; lia].
    + eexists. eexists. split; [reflexivity|].
      now apply float_of_decimal_near.
Qed.

Lemma average_is_mean_within_tolerance_witness :
  let self := student_mark_manager.seeded in
  let t := [mkStudent 101 "A" "Math" 95; mkStudent 102 "B" "Physics" 87;
            mkStudent 103 "C" "Math" 78] in
  let db := student_mark_manager_mysql.mkManagerDB (Some t) in
  (student_mark_manager.students self <> []
   /\ Spec.count_in_range (student_mark_manager.students self)
   /\ Spec.marks_in_range (student_mark_manager.students self)
   /\ exists out avg,
        student_mark_manager.calculate_average_marks self
          = Ok (out, PyFloat avg)
        /\ (Qabs (avg - Spec.mean (student_mark_manager.students self))
            <= Spec.tolerance
               * Qabs (Spec.mean (student_mark_manager.students self)))%Q)
  /\
  (student_mark_manager_mysql.connection db = Some t
   /\ t <> []
   /\ Spec.answers_count_sum_avg Spec.decimal_server (1 # 2000000) t
   /\ exists out avg,
        student_mark_manager_mysql.calculate_average_marks
          Spec.decimal_server db
          = Ok (out, PyFloat avg)
        /\ (Qabs (avg - Spec.mean t)
            <= (1 # 2000000)
               + Spec.tolerance * (Qabs (Spec.mean t) + (1 # 2000000)))%Q).
Proof.
  destruct average_is_mean_within_tolerance as [Hmem Hdb].
  assert (Hcount : Spec.count_in_range
                     (student_mark_manager.students student_mark_manager.seeded)).
  { unfold Spec.count_in_range. simpl List.length.
    change (Z.of_nat 9) with 9. apply Z.leb_le. reflexivity. }
  assert (Hmarks : Spec.marks_in_range
                     (student_mark_manager.students student_mark_manager.seeded)).
  { unfold Spec.marks_in_range. simpl.
    repeat constructor; apply Z.leb_le; reflexivity. }
  assert (Hanswer : Spec.answers_count_sum_avg Spec.decimal_server (1 # 2000000)
                      [mkStudent 101 "A" "Math" 95; mkStudent 102 "B" "Physics" 87;
                       mkStudent 103 "C" "Math" 78]).
  { unfold Spec.answers_count_sum_avg. cbn [Spec.decimal_server].
    split; [reflexivity|]. split; [reflexivity|]. split; [|split].
    - apply Qle_bool_iff. reflexivity.
    - right. apply Qle_bool_iff. reflexivity.
    - apply Qle_bool_iff. reflexivity. }
  split.
  - split; [discriminate|]. split; [exact Hcount|]. split; [exact Hmarks|].
    apply (Hmem student_mark_manager.seeded); [discriminate | exact Hcount | exact Hmarks].
  - split; [reflexivity|]. split; [discriminate|]. split; [exact Hanswer|].
    apply (Hdb Spec.decimal_server (1 # 2000000)
             (student_mark_manager_mysql.mkManagerDB
                (Some [mkStudent 101 "A" "Math" 95; mkStudent 102 "B" "Physics" 87;
                       mkStudent 103 "C" "Math" 78]))).
    + reflexivity.
    + discriminate.
    + exact Hanswer.
Defined.

(** C3, as stated, fails: on the empty store [calculate_average_marks]
    returns the number 0, which Python's [==] does not tell from the average
    of a store whose marks are all zero. *)
Lemma empty_store_average_is_a_number :
  student_mark_manager.calculate_average_marks student_mark_manager.init
  = Ok ([NoRecordsFound], PyInt 0)
  /\ exists out avg,
       student_mark_manager.calculate_average_marks
         (student_mark_manager.mkManager [mkStudent 1 "A" "Math" 0])
       = Ok (out, avg)
       /\ number_eqb (PyInt 0) avg = true.
Proof.
  split; [reflexivity|].
  eexists. eexists. split; reflexivity.
Qed.

(** C3, amended. For a store with zero records, both operations print the
    line that no records were found and nothing else; [find_highest_marks]
    returns [None], and [calculate_average_marks] returns the number 0. *)
Theorem empty_store_reports_no_records :
  forall self : student_mark_manager.StudentMarksManager,
    student_mark_manager.get_student_count self = 0%nat ->
    student_mark_manager.find_highest_marks self = Ok ([NoRecordsFound], None)
    /\ student_mark_manager.calculate_average_marks self
       = Ok ([NoRecordsFound], PyInt 0).
Proof.
  intros [l]. unfold student_mark_manager.get_student_count. simpl.
  intros Hlen. apply length_zero_iff_nil in Hlen. subst l.
  split; reflexivity.
Qed.

Lemma empty_store_reports_no_records_witness :
  student_mark_manager.get_student_count student_mark_manager.init = 0%nat
  /\ student_mark_manager.find_highest_marks student_mark_manager.init
     = Ok ([NoRecordsFound], None)
  /\ student_mark_manager.calculate_average_marks student_mark_manager.init
     = Ok ([NoRecordsFound], PyInt 0).
Proof.
  split; [reflexivity|].
  apply empty_store_reports_no_records. reflexivity.
Defined.

(** The average of the records of [main]: 798 / 9 as a float. *)
Example average_seeded :
  student_mark_manager.calculate_average_marks student_mark_manager.seeded
  = Ok ([ClassAverage 9 798 (6239361983752875 # 70368744177664)],
        PyFloat (6239361983752875 # 70368744177664)).
Proof. reflexivity. Qed.

(** ** Inserting into the table *)

Section Insert.

Import student_mark_manager_mysql.

Lemma execute_insert_duplicate (t : table) (old values : student) :
  In old t -> roll_no old = roll_no values ->
  execute_insert t values = inl (DuplicateEntry (roll_no values)).
Proof.
  intros Hin Hroll. unfold execute_insert.
  replace (existsb (fun row => roll_no row =? roll_no values) t) with true;
    [reflexivity|].
  symmetry. apply existsb_exists. exists old. split; [exact Hin|].
  now apply Z.eqb_eq.
Qed.

Lemma execute_insert_fresh (t : table) (values : student) :
  (forall row, In row t -> roll_no row <> roll_no values) ->
  execute_insert t values = inr (t ++ [values]).
Proof.
  intros Hfresh. unfold execute_insert.
  destruct (existsb (fun row => roll_no row =? roll_no values) t) eqn:E;
    [|reflexivity].
  apply existsb_exists in E. destruct E as (row & Hin & Heq).
  apply Z.eqb_eq in Heq. now destruct (Hfresh row Hin).
Qed.

End Insert.

(** C4. For every state of the MySQL manager whose table already holds a
    record with a given roll number, [add_student] with that roll number
    reports the duplicate-key error of the UNIQUE constraint, returns [False]
    and leaves the manager as it was, so the prior record is still in the
    table, unchanged. *)
Theorem duplicate_roll_no_rejected :
  forall (self : student_mark_manager_mysql.StudentMarksManagerDB)
         (t : student_mark_manager_mysql.table) (old : student)
         (name subject : string) (marks : Z),
    student_mark_manager_mysql.connection self = Some t ->
    In old t ->
    student_mark_manager_mysql.add_student self (roll_no old) name subject marks
    = Ok ([ErrorAdding name (DuplicateEntry (roll_no old))], false, self).
Proof.
  intros self t old name subject marks Hconn Hin.
  unfold student_mark_manager_mysql.add_student. rewrite Hconn.
  now rewrite (execute_insert_duplicate t old (mkStudent (roll_no old) name subject marks) Hin).
Qed.

Lemma duplicate_roll_no_rejected_witness :
  let alice := mkStudent 101 "Alice Johnson" "Mathematics" 95 in
  let t := [alice; mkStudent 102 "Bob Smith" "Physics" 87] in
  let self := student_mark_manager_mysql.mkManagerDB (Some t) in
  student_mark_manager_mysql.connection self = Some t
  /\ In alice t
  /\ student_mark_manager_mysql.add_student self 101 "Zed" "Physics" 10
     = Ok ([ErrorAdding "Zed" (DuplicateEntry 101)], false, self).
Proof.
  split; [reflexivity|]. split; [now left|].
  apply (duplicate_roll_no_rejected
           (student_mark_manager_mysql.mkManagerDB
              (Some [mkStudent 101 "Alice Johnson" "Mathematics" 95;
                     mkStudent 102 "Bob Smith" "Physics" 87]))
           [mkStudent 101 "Alice Johnson" "Mathematics" 95;
            mkStudent 102 "Bob Smith" "Physics" 87]
           (mkStudent 101 "Alice Johnson" "Mathematics" 95)).
  - reflexivity.
  - now left.
Defined.

Example add_student_db_fresh :
  student_mark_manager_mysql.add_student
    (student_mark_manager_mysql.mkManagerDB
       (Some [mkStudent 101 "Alice Johnson" "Mathematics" 95]))
    102 "Bob Smith" "Physics" 87
  = Ok ([Added "Bob Smith"], true,
        student_mark_manager_mysql.mkManagerDB
          (Some [mkStudent 101 "Alice Johnson" "Mathematics" 95;
                 mkStudent 102 "Bob Smith" "Physics" 87])).
Proof. reflexivity. Qed.

(** ** The dict of marks by subject *)

Section Dict.

Context {V : Type}.

Lemma contains_keys (d : Py.dict V) (k : string) :
  Py.contains d k = existsb (String.eqb k) (Py.keys d).
Proof.
  induction d as [|[k' v] d' IH]; simpl.
  - reflexivity.
  - rewrite (String.eqb_sym k k'). destruct (String.eqb k' k); [reflexivity | exact IH].
Qed.

Lemma getitem_present (d : Py.dict V) (k : string) :
  Py.contains d k = true -> exists v, Py.getitem d k = Ok v.
Proof.
  induction d as [|[k' v] d' IH]; simpl.
  - discriminate.
  - destruct (String.eqb k' k); [now exists v | exact IH].
Qed.

(** Assigning to a new key puts the item last. *)
Lemma setitem_absent (d : Py.dict V) (k : string) (v : V) :
  Py.contains d k = false -> Py.setitem d k v = d ++ [(k, v)].
Proof.
  induction d as [|[k' v'] d' IH]; simpl.
  - reflexivity.
  - destruct (String.eqb k' k); [discriminate|].
    intros H. now rewrite IH.
Qed.

Lemma getitem_last (d : Py.dict V) (k : string) (v : V) :
  Py.contains d k = false -> Py.getitem (d ++ [(k, v)]) k = Ok v.
Proof.
  induction d as [|[k' v'] d' IH]; simpl.
  - now rewrite String.eqb_refl.
  - destruct (String.eqb k' k); [discriminate | exact IH].
Qed.

Lemma setitem_last (d : Py.dict V) (k : string) (v w : V) :
  Py.contains d k = false -> Py.setitem (d ++ [(k, v)]) k w = d ++ [(k, w)].
Proof.
  induction d as [|[k' v'] d' IH]; simpl.
  - now rewrite String.eqb_refl.
  - destruct (String.eqb k' k); [discriminate|].
    intros H. now rewrite IH.
Qed.

(** Assigning to a key that is present keeps every key in its place. *)
Lemma keys_setitem_present (d : Py.dict V) (k : string) (v : V) :
  Py.contains d k = true -> Py.keys (Py.setitem d k v) = Py.keys d.
Proof.
  induction d as [|[k' v'] d' IH]; simpl.
  - discriminate.
  - destruct (String.eqb k' k); simpl; [reflexivity|].
    intros H. now rewrite IH.
Qed.

End Dict.

Section DictMore.

Context {V : Type}.

Lemma getitem_absent (d : Py.dict V) (k : string) :
  Py.contains d k = false -> Py.getitem d k = Raise KeyError.
Proof.
  induction d as [|[k' v] d' IH]; simpl.
  - reflexivity.
  - destruct (String.eqb k' k); [discriminate | exact IH].
Qed.

Lemma getitem_setitem_same (d : Py.dict V) (k : string) (v : V) :
  Py.getitem (Py.setitem d k v) k = Ok v.
Proof.
  induction d as [|[k' v'] d' IH]; simpl.
  - now rewrite String.eqb_refl.
  - destruct (String.eqb k' k) eqn:E; simpl; rewrite E; [reflexivity | exact IH].
Qed.

Lemma getitem_setitem_other (d : Py.dict V) (k k' : string) (v : V) :
  k <> k' -> Py.getitem (Py.setitem d k v) k' = Py.getitem d k'.
Proof.
  intros Hne. induction d as [|[k0 v0] d' IH]; simpl.
  - destruct (String.eqb_spec k k'); [contradiction | reflexivity].
  - destruct (String.eqb_spec k0 k) as [-> | Hk]; simpl.
    + destruct (String.eqb_spec k k'); [contradiction | reflexivity].
    + destruct (String.eqb k0 k'); [reflexivity | exact IH].
Qed.

(** In a dict every key occurs once, so an item is what its key gives. *)
Lemma getitem_In (d : Py.dict V) (k : string) (v : V) :
  NoDup (Py.keys d) -> In (k, v) d -> Py.getitem d k = Ok v.
Proof.
  induction d as [|[k' v'] d' IH]; simpl; intros Hnd Hin.
  - contradiction.
  - inversion Hnd as [|? ? Hk Hnd']; subst.
    destruct Hin as [Heq | Hin].
    + injection Heq as -> ->. now rewrite String.eqb_refl.
    + destruct (String.eqb_spec k' k) as [-> | _].
      * exfalso. apply Hk. change k with (fst (k, v)). now apply in_map.
      * now apply IH.
Qed.

End DictMore.

(** ** The order of first encounters *)

Section FirstSeen.

Lemma existsb_eqb_In (x : string) (l : list string) :
  existsb (String.eqb x) l = true <-> In x l.
Proof.
  rewrite existsb_exists. split.
  - intros (y & Hy & Heq). apply String.eqb_eq in Heq. now subst.
  - intros H. exists x. split; [exact H | apply String.eqb_refl].
Qed.

(** A subject is listed exactly when it occurs and was not seen before. *)
Lemma first_seen_In (l : list string) : forall seen x,
  In x (Spec.first_seen seen l) <-> In x l /\ ~ In x seen.
Proof.
  induction l as [|y rest IH]; intros seen x; simpl.
  - tauto.
  - destruct (existsb (String.eqb y) seen) eqn:E.
    + apply existsb_eqb_In in E. rewrite IH. split.
      * tauto.
      * intros [[-> | H] Hn]; [contradiction | tauto].
    + assert (Hy : ~ In y seen).
      { intros H. apply existsb_eqb_In in H. congruence. }
      simpl. rewrite IH, in_app_iff. simpl. split.
      * intros [-> | [H Hn]]; [tauto|]. split; [tauto|]. tauto.
      * intros [[-> | H] Hn]; [now left|].
        destruct (string_dec y x) as [-> | Hne]; [now left|].
        right. split; [exact H|]. intros [H' | [H' | []]]; tauto.
Qed.

(** No subject is listed twice. *)
Lemma first_seen_NoDup (l : list string) : forall seen,
  NoDup (Spec.first_seen seen l).
Proof.
  induction l as [|y rest IH]; intros seen; simpl.
  - constructor.
  - destruct (existsb (String.eqb y) seen); [apply IH|].
    constructor; [|apply IH].
    rewrite first_seen_In, in_app_iff. simpl. tauto.
Qed.

End FirstSeen.

(** ** The marks of a group *)

Section MinLoop.

Lemma min_loop_In (l : list Z) : forall best,
  Py.min_loop best l = best \/ In (Py.min_loop best l) l.
Proof.
  induction l as [|x rest IH]; intros best; simpl.
  - now left.
  - destruct (x <? best).
    + destruct (IH x) as [-> | H]; auto.
    + destruct (IH best) as [-> | H]; auto.
Qed.

Lemma min_loop_le_best (l : list Z) : forall best, Py.min_loop best l <= best.
Proof.
  induction l as [|x rest IH]; intros best; simpl.
  - lia.
  - destruct (Z.ltb_spec x best) as [E | E].
    + specialize (IH x). lia.
    + apply IH.
Qed.

Lemma min_loop_le_all (l : list Z) : forall best,
  Forall (fun x => Py.min_loop best l <= x) l.
Proof.
  induction l as [|x rest IH]; intros best; simpl; constructor.
  - destruct (Z.ltb_spec x best) as [E | E].
    + apply min_loop_le_best.
    + pose proof (min_loop_le_best rest best). lia.
  - destruct (x <? best); apply IH.
Qed.

(** [max] of a list of marks: one of them, and none is greater. *)
Lemma max_spec (v : list Z) (mx : Z) :
  Py.max v = Ok mx -> In mx v /\ forall m, In m v -> m <= mx.
Proof.
  destruct v as [|x rest]; simpl; [discriminate|].
  intros H. injection H as <-. split.
  - destruct (max_loop_In (fun z => z) rest x) as [-> | H]; auto.
  - intros m [<- | Hm].
    + apply (max_loop_ge_best (fun z => z)).
    + pose proof (max_loop_ge_all (fun z => z) rest x) as Hall.
      rewrite Forall_forall in Hall. now apply Hall.
Qed.

(** [min] of a list of marks: one of them, and none is smaller. *)
Lemma min_spec (v : list Z) (mn : Z) :
  Py.min v = Ok mn -> In mn v /\ forall m, In m v -> mn <= m.
Proof.
  destruct v as [|x rest]; simpl; [discriminate|].
  intros H. injection H as <-. split.
  - destruct (min_loop_In rest x) as [-> | H]; auto.
  - intros m [<- | Hm].
    + apply min_loop_le_best.
    + pose proof (min_loop_le_all rest x) as Hall.
      rewrite Forall_forall in Hall. now apply Hall.
Qed.

Lemma mean_of_above_subnormal (v : list Z) :
  v <> [] -> Z.of_nat (List.length v) <= 2 ^ 1022 ->
  Spec.above_subnormal (Spec.mean_of v).
Proof.
  intros Hne Hcount. unfold Spec.mean_of. apply quotient_above_subnormal.
  - destruct v; [contradiction | simpl List.length; lia].
  - exact Hcount.
Qed.

Lemma mean_of_below_overflow (v : list Z) :
  v <> [] -> Forall (fun m => Z.abs m <= 2 ^ 1023) v ->
  Spec.below_overflow (Spec.mean_of v).
Proof.
  intros Hne Hmarks. unfold Spec.mean_of. apply quotient_below_overflow.
  - destruct v; [contradiction | simpl List.length; lia].
  - now apply sum_abs_bound.
Qed.

(** The average of a group of marks, when the division returns, is the
    float of its mean. *)
Lemma truediv_mean_of (v : list Z) (avg : Q) :
  Py.truediv (Py.sum v) (Py.len v) = Ok avg ->
  avg = Py.float_of_Q (Spec.mean_of v).
Proof.
  unfold Py.truediv. destruct (Py.len v =? 0); [discriminate|].
  cbv zeta. destruct (Py.float_max_exceeded _); [discriminate|].
  intros H. injection H as <-.
  unfold Spec.mean_of, Py.len. now rewrite sum_fold_right.
Qed.

Lemma truediv_mean_of_in_range (v : list Z) :
  v <> [] -> Spec.below_overflow (Spec.mean_of v) ->
  Py.truediv (Py.sum v) (Py.len v) = Ok (Py.float_of_Q (Spec.mean_of v)).
Proof.
  intros Hne Hhigh.
  assert (Hlen : Py.len v <> 0)
    by (unfold Py.len; destruct v; [contradiction | simpl List.length; lia]).
  unfold Spec.mean_of in *. rewrite <- sum_fold_right in *.
  now apply truediv_in_range.
Qed.

End MinLoop.

(** ** The two loops of the subject report *)

Section Groups.

Import student_mark_manager.

Lemma total_app (d d' : Py.dict (list Z)) : Spec.total (d ++ d') = (Spec.total d + Spec.total d')%nat.
Proof. unfold Spec.total. now rewrite map_app, list_sum_app. Qed.

Lemma setitem_present_groups (d : Py.dict (list Z)) (k : string) (v0 v : list Z) :
  Py.getitem d k = Ok v0 ->
  v <> [] ->
  Forall Spec.nonempty d ->
  Forall Spec.nonempty (Py.setitem d k v)
  /\ (Spec.total (Py.setitem d k v) + List.length v0 = Spec.total d + List.length v)%nat.
Proof.
  intros Hget Hv. induction d as [|[k' v'] d' IH]; simpl in *.
  - discriminate.
  - intros Hall. inversion Hall as [|? ? Hhd Htl]; subst.
    destruct (String.eqb k' k).
    + injection Hget as ->. split.
      * constructor; [exact Hv | exact Htl].
      * unfold Spec.total. simpl. lia.
    + destruct (IH Hget Htl) as [IHall IHtotal]. split.
      * constructor; [exact Hhd | exact IHall].
      * unfold Spec.total in *. simpl. lia.
Qed.

(** One turn of the first loop of [get_subject_wise_stats]: the mark joins
    the group of its subject, and a subject not seen before gets a new
    group after all the others. *)
Lemma group_step (d : Py.dict (list Z)) (k : string) (m : Z) :
  Forall Spec.nonempty d ->
  exists v,
    Py.getitem (if negb (Py.contains d k) then Py.setitem d k [] else d) k = Ok v
    /\ Forall Spec.nonempty
         (Py.setitem (if negb (Py.contains d k) then Py.setitem d k [] else d)
            k (v ++ [m]))
    /\ Py.keys (Py.setitem (if negb (Py.contains d k) then Py.setitem d k [] else d)
               k (v ++ [m]))
       = (if Py.contains d k then Py.keys d else Py.keys d ++ [k])
    /\ Spec.total (Py.setitem (if negb (Py.contains d k) then Py.setitem d k [] else d)
                k (v ++ [m]))
       = S (Spec.total d).
Proof.
  intros Hall. destruct (Py.contains d k) eqn:Hc; simpl.
  - destruct (getitem_present d k Hc) as [v Hv]. exists v.
    split; [exact Hv|].
    assert (Hne : v ++ [m] <> []) by now destruct v.
    destruct (setitem_present_groups d k v (v ++ [m]) Hv Hne Hall) as [H1 H2].
    split; [exact H1|]. split; [now apply keys_setitem_present|].
    rewrite length_app in H2. simpl in H2. lia.
  - exists []. rewrite (setitem_absent d k [] Hc).
    split; [now apply getitem_last|].
    rewrite (setitem_last d k [] ([] ++ [m]) Hc). simpl.
    split; [|split].
    + apply Forall_app. split; [exact Hall|]. now repeat constructor.
    + unfold Py.keys. now rewrite map_app.
    + rewrite total_app. unfold Spec.total at 2. simpl. lia.
Qed.

Lemma group_loop_spec (l : list student) : forall d : Py.dict (list Z),
  Forall Spec.nonempty d ->
  exists d',
    group_loop d l = Ok d'
    /\ Forall Spec.nonempty d'
    /\ Py.keys d' = Py.keys d ++ Spec.first_seen (Py.keys d) (map subject l)
    /\ Spec.total d' = (Spec.total d + List.length l)%nat.
Proof.
  induction l as [|st rest IH]; intros d Hall.
  - exists d. simpl. rewrite app_nil_r, Nat.add_0_r. auto.
  - destruct (group_step d (subject st) (marks st) Hall)
      as (v & Hget & Hall' & Hkeys & Htotal).
    simpl. rewrite Hget. simpl.
    destruct (IH _ Hall') as (d' & Hloop & Hne & Hk & Ht).
    exists d'. split; [exact Hloop|]. split; [exact Hne|].
    rewrite Hk, Ht, Hkeys, Htotal. rewrite <- contains_keys.
    destruct (Py.contains d (subject st)).
    + split; [reflexivity | lia].
    + rewrite <- app_assoc. split; [reflexivity | lia].
Qed.

Lemma marks_of_cons (s : string) (st : student) (rest : list student) :
  Spec.marks_of s (st :: rest)
  = if String.eqb (subject st) s then marks st :: Spec.marks_of s rest
    else Spec.marks_of s rest.
Proof.
  unfold Spec.marks_of. simpl. now destruct (String.eqb (subject st) s).
Qed.

(** The first loop of [get_subject_wise_stats] adds to the group of each
    subject the marks of the records of that subject, in their order. *)
Lemma group_loop_groups (l : list student) :
  forall (d d' : Py.dict (list Z)),
    group_loop d l = Ok d' ->
    forall s, Spec.group_of d' s = Spec.group_of d s ++ Spec.marks_of s l.
Proof.
  induction l as [|st rest IH]; intros d d' Hloop s.
  - simpl in Hloop. injection Hloop as <-. simpl. now rewrite app_nil_r.
  - rewrite marks_of_cons. simpl in Hloop.
    destruct (Py.contains d (subject st)) eqn:Hc; simpl in Hloop.
    + destruct (getitem_present d (subject st) Hc) as [v Hv].
      rewrite Hv in Hloop. simpl in Hloop.
      rewrite (IH _ _ Hloop s). unfold Spec.group_of.
      destruct (String.eqb_spec (subject st) s) as [<- | Hne].
      * rewrite getitem_setitem_same, Hv. now rewrite <- app_assoc.
      * now rewrite getitem_setitem_other.
    + rewrite getitem_setitem_same in Hloop. simpl in Hloop.
      rewrite (IH _ _ Hloop s). unfold Spec.group_of.
      destruct (String.eqb_spec (subject st) s) as [<- | Hne].
      * rewrite getitem_setitem_same, (getitem_absent d _ Hc). reflexivity.
      * now rewrite !getitem_setitem_other.
Qed.

Lemma marks_of_length (s : string) (l : list student) :
  (List.length (Spec.marks_of s l) <= List.length l)%nat.
Proof.
  unfold Spec.marks_of. rewrite length_map. apply filter_length_le.
Qed.

Lemma marks_of_in_range (s : string) (l : list student) :
  Spec.marks_in_range l ->
  Forall (fun m => Z.abs m <= 2 ^ 1023) (Spec.marks_of s l).
Proof.
  unfold Spec.marks_in_range, Spec.marks_of. intros H.
  apply Forall_map. rewrite Forall_forall in H |- *.
  intros r Hr. apply filter_In in Hr. now apply H.
Qed.

(** The dict that the first loop builds: its keys are the subjects in the
    order of their first encounter, and the group of a subject holds the
    marks of the records of that subject. *)
Lemma group_loop_dict (l : list student) :
  exists d,
    group_loop [] l = Ok d
    /\ Py.keys d = Spec.first_encounters (map subject l)
    /\ Spec.total d = List.length l
    /\ forall k v, In (k, v) d -> v = Spec.marks_of k l /\ v <> [].
Proof.
  destruct (group_loop_spec l [] (Forall_nil _))
    as (d & Hloop & Hne & Hkeys & Htotal).
  simpl in Hkeys, Htotal.
  exists d. split; [exact Hloop|]. split; [exact Hkeys|]. split; [exact Htotal|].
  intros k v Hin. split.
  - assert (Hnd : NoDup (Py.keys d)) by (rewrite Hkeys; apply first_seen_NoDup).
    pose proof (group_loop_groups l [] d Hloop k) as Hg.
    unfold Spec.group_of in Hg at 1.
    now rewrite (getitem_In d k v Hnd Hin) in Hg.
  - rewrite Forall_forall in Hne. exact (Hne (k, v) Hin).
Qed.

Lemma block_values_inv (v : list Z) (avg : Q) (mx mn : Z) :
  block_values v = Ok (avg, mx, mn) ->
  Py.truediv (Py.sum v) (Py.len v) = Ok avg
  /\ Py.max v = Ok mx
  /\ Py.min v = Ok mn.
Proof.
  unfold block_values.
  destruct (Py.truediv (Py.sum v) (Py.len v)) as [a|]; [|discriminate].
  destruct (Py.max v) as [x|]; [|discriminate].
  destruct (Py.min v) as [n|]; [|discriminate].
  cbn [bind]. intros H. injection H as <- <- <-. auto.
Qed.

(** A group that is not empty and whose mean is in range gets its block. *)
Lemma block_values_in_range (v : list Z) :
  v <> [] -> Spec.below_overflow (Spec.mean_of v) ->
  exists vals, block_values v = Ok vals.
Proof.
  intros Hne Hhigh. unfold block_values.
  rewrite (truediv_mean_of_in_range v Hne Hhigh).
  destruct v as [|m v']; [contradiction|].
  cbn [bind Py.max Py.min Py.max_key]. eexists. reflexivity.
Qed.

(** The second loop prints the blocks of the groups in the order of the
    dict, up to the group whose values raise. *)
Lemma report_loop_prefix (items : list (string * list Z)) :
  exists rest,
    map (fun kv => (fst kv, List.length (snd kv))) items
    = Spec.report_groups (fst (report_loop items)) ++ rest
    /\ (snd (report_loop items) = Ok tt -> rest = []).
Proof.
  induction items as [|[k v] items' (rest & Heq & Hok)]; cbn [report_loop].
  - exists []. auto.
  - destruct (block_values v) as [[[avg mx] mn]|e].
    + destruct (report_loop items') as [out outcome].
      cbn [fst snd map Spec.report_groups] in *.
      exists rest. split; [now rewrite Heq | exact Hok].
    + eexists. cbn [fst snd Spec.report_groups app].
      split; [reflexivity | discriminate].
Qed.

Lemma report_loop_ok (items : list (string * list Z)) :
  Forall (fun kv => exists vals, block_values (snd kv) = Ok vals) items ->
  snd (report_loop items) = Ok tt.
Proof.
  induction 1 as [|[k v] items' [[[avg mx] mn] Hv] Hrest IH]; cbn [report_loop].
  - reflexivity.
  - cbn [snd] in Hv. rewrite Hv.
    destruct (report_loop items') as [out outcome]. exact IH.
Qed.

(** Every block of the report comes from an item of the dict. *)
Lemma report_loop_lines (items : list (string * list Z)) :
  forall s avg mx mn c,
    In (SubjectStats s avg mx mn c) (fst (report_loop items)) ->
    exists v,
      In (s, v) items
      /\ block_values v = Ok (avg, mx, mn)
      /\ c = List.length v.
Proof.
  induction items as [|[k v] items' IH]; intros s avg mx mn c Hin;
    cbn [report_loop] in Hin.
  - contradiction.
  - destruct (block_values v) as [[[a x] n]|e] eqn:Hv; [|contradiction].
    destruct (report_loop items') as [out outcome].
    cbn [fst] in *. destruct Hin as [Heq | Hin].
    + injection Heq as <- <- <- <- <-. exists v. repeat split; auto. now left.
    + destruct (IH s avg mx mn c Hin) as (v' & Hv' & H).
      exists v'. split; [now right | exact H].
Qed.

(** Every group the report counts has its block, and conversely. *)
Lemma report_groups_In (out : list line) (s : string) (c : nat) :
  In (s, c) (Spec.report_groups out) <->
  exists avg mx mn, In (SubjectStats s avg mx mn c) out.
Proof.
  induction out as [|ln rest IH]; simpl.
  - split; [contradiction | intros (? & ? & ? & [])].
  - destruct ln; simpl; rewrite ?IH; split;
      try (intros (avg0 & mx0 & mn0 & H); exists avg0, mx0, mn0; now right);
      try (intros (avg0 & mx0 & mn0 & [H | H]); [discriminate | now exists avg0, mx0, mn0]).
    + intros [H | (avg0 & mx0 & mn0 & H)].
      * injection H as -> ->. exists avg, max_marks, min_marks. now left.
      * exists avg0, mx0, mn0. now right.
    + intros (avg0 & mx0 & mn0 & [H | H]).
      * injection H as -> _ _ _ ->. now left.
      * right. now exists avg0, mx0, mn0.
Qed.

(** The method prints the header, then what the second loop prints for the
    dict of the first. *)
Lemma get_subject_wise_stats_eq (self : StudentMarksManager) (d : Py.dict (list Z)) :
  group_loop [] (students self) = Ok d ->
  get_subject_wise_stats self
  = (StatsHeader :: fst (report_loop d), snd (report_loop d)).
Proof.
  intros Hloop. unfold get_subject_wise_stats, Py.items. rewrite Hloop.
  now destruct (report_loop d).
Qed.

(** With marks in range the report is complete: one block per group of the
    dict, in its order. *)
Lemma get_subject_wise_stats_in_range (self : StudentMarksManager) :
  Spec.marks_in_range (students self) ->
  exists d out,
    group_loop [] (students self) = Ok d
    /\ get_subject_wise_stats self = (StatsHeader :: out, Ok tt)
    /\ Spec.report_groups out
       = map (fun kv => (fst kv, List.length (snd kv))) d.
Proof.
  intros Hrange.
  destruct (group_loop_dict (students self)) as (d & Hloop & _ & _ & Hgroups).
  assert (Hall : Forall (fun kv => exists vals, block_values (snd kv) = Ok vals) d).
  { apply Forall_forall. intros [k v] Hin. cbn [snd].
    destruct (Hgroups k v Hin) as [Hv Hne].
    apply block_values_in_range; [exact Hne|].
    apply mean_of_below_overflow; [exact Hne|].
    rewrite Hv. now apply marks_of_in_range. }
  pose proof (report_loop_ok d Hall) as Hok.
  destruct (report_loop_prefix d) as (rest & Heq & Hrest).
  rewrite (Hrest Hok), app_nil_r in Heq.
  exists d, (fst (report_loop d)). split; [exact Hloop|]. split.
  - rewrite (get_subject_wise_stats_eq self d Hloop). now rewrite Hok.
  - now symmetry.
Qed.

End Groups.

(** C7, as stated, fails: when the marks of a subject are too large for a
    float, the division of the average raises [OverflowError] after the
    header, no count is printed, and the counts that were printed do not sum
    to the number of records. *)
Lemma subject_counts_missing_on_overflow :
  student_mark_manager.get_subject_wise_stats
    (student_mark_manager.mkManager [mkStudent 1 "A" "Math" (2 ^ 1100)])
  = ([StatsHeader], Raise OverflowError)
  /\ list_sum (map snd (Spec.report_groups [StatsHeader]))
     <> student_mark_manager.get_student_count
          (student_mark_manager.mkManager [mkStudent 1 "A" "Math" (2 ^ 1100)]).
Proof.
  split; [reflexivity | discriminate].
Qed.

(** C7, amended.  For every store whose marks are at most [2^1023] in
    absolute value, [get_subject_wise_stats] prints its report to the end,
    the counts of its groups sum to the number of records that
    [get_student_count] returns, and the count of each group is the number of
    records of its subject. *)
Theorem subject_counts_sum_to_count :
  forall self : student_mark_manager.StudentMarksManager,
    Spec.marks_in_range (student_mark_manager.students self) ->
    exists out,
      student_mark_manager.get_subject_wise_stats self = (out, Ok tt)
      /\ list_sum (map snd (Spec.report_groups out))
         = student_mark_manager.get_student_count self
      /\ forall s c,
           In (s, c) (Spec.report_groups out) ->
           c = List.length
                 (Spec.marks_of s (student_mark_manager.students self)).
Proof.
  intros self Hrange.
  destruct (get_subject_wise_stats_in_range self Hrange)
    as (d & out & Hloop & Hstats & Hgroups).
  destruct (group_loop_dict (student_mark_manager.students self))
    as (d0 & Hloop0 & _ & Htotal & Hdict).
  rewrite Hloop in Hloop0. injection Hloop0 as <-.
  exists (StatsHeader :: out). split; [exact Hstats|].
  cbn [Spec.report_groups]. rewrite Hgroups. split.
  - rewrite map_map. exact Htotal.
  - intros s c Hin. apply in_map_iff in Hin.
    destruct Hin as ([k v] & Heq & Hin). cbn [fst snd] in Heq.
    injection Heq as <- <-.
    destruct (Hdict k v Hin) as [-> _]. reflexivity.
Qed.

Lemma subject_counts_sum_to_count_witness :
  Spec.marks_in_range (student_mark_manager.students student_mark_manager.seeded)
  /\ exists out,
       student_mark_manager.get_subject_wise_stats student_mark_manager.seeded
       = (out, Ok tt)
       /\ list_sum (map snd (Spec.report_groups out))
          = student_mark_manager.get_student_count student_mark_manager.seeded
       /\ forall s c,
            In (s, c) (Spec.report_groups out) ->
            c = List.length
                  (Spec.marks_of s
                     (student_mark_manager.students student_mark_manager.seeded)).
Proof.
  assert (Hmarks : Spec.marks_in_range
                     (student_mark_manager.students student_mark_manager.seeded)).
  { unfold Spec.marks_in_range. simpl.
    repeat constructor; apply Z.leb_le; reflexivity. }
  split; [exact Hmarks|].
  apply subject_counts_sum_to_count. exact Hmarks.
Defined.

(** C9. For every store, the in-memory [get_subject_wise_stats] goes through
    the groups in the order in which their subjects are first encountered in
    the list of records: that is the order of the keys of the dict it
    builds, and the blocks it prints follow that order, up to the end when
    the loop ends, which it does when the marks are at most [2^1023] in
    absolute value.  That order is not the alphabetical one, as the records
    of [main] show. *)
Theorem subject_groups_in_first_seen_order :
  (forall self : student_mark_manager.StudentMarksManager,
      exists subjects out outcome rest,
        student_mark_manager.group_loop [] (student_mark_manager.students self)
          = Ok subjects
        /\ Py.keys subjects
           = Spec.first_encounters
               (map subject (student_mark_manager.students self))
        /\ student_mark_manager.get_subject_wise_stats self = (out, outcome)
        /\ Spec.first_encounters
             (map subject (student_mark_manager.students self))
           = map fst (Spec.report_groups out) ++ rest
        /\ (outcome = Ok tt -> rest = []))
  /\
  (forall self : student_mark_manager.StudentMarksManager,
      Spec.marks_in_range (student_mark_manager.students self) ->
      exists out,
        student_mark_manager.get_subject_wise_stats self = (out, Ok tt)
        /\ map fst (Spec.report_groups out)
           = Spec.first_encounters
               (map subject (student_mark_manager.students self)))
  /\
  (exists out,
      student_mark_manager.get_subject_wise_stats student_mark_manager.seeded
        = (out, Ok tt)
      /\ map fst (Spec.report_groups out) = ["Mathematics"; "Physics"; "Chemistry"]
      /\ ~ Spec.alphabetical (map fst (Spec.report_groups out))).
Proof.
  split; [|split].
  - intros self.
    destruct (group_loop_dict (student_mark_manager.students self))
      as (d & Hloop & Hkeys & _ & _).
    destruct (report_loop_prefix d) as (rest & Heq & Hrest).
    exists d, (StatsHeader :: fst (student_mark_manager.report_loop d)),
      (snd (student_mark_manager.report_loop d)), (map fst rest).
    split; [exact Hloop|]. split; [exact Hkeys|].
    split; [now apply get_subject_wise_stats_eq|]. split.
    + cbn [Spec.report_groups]. rewrite <- Hkeys, <- map_app, <- Heq.
      unfold Py.keys. now rewrite map_map.
    + intros Hok. now rewrite (Hrest Hok).
  - intros self Hrange.
    destruct (get_subject_wise_stats_in_range self Hrange)
      as (d & out & Hloop & Hstats & Hgroups).
    destruct (group_loop_dict (student_mark_manager.students self))
      as (d0 & Hloop0 & Hkeys & _ & _).
    rewrite Hloop in Hloop0. injection Hloop0 as <-.
    exists (StatsHeader :: out). split; [exact Hstats|].
    cbn [Spec.report_groups]. rewrite Hgroups, <- Hkeys.
    unfold Py.keys. now rewrite map_map.
  - eexists. split; [reflexivity|]. split; [reflexivity|].
    simpl. intros H.
    inversion H as [|? ? Htail _]; subst.
    inversion Htail as [|? ? _ Hphys]; subst.
    inversion Hphys as [|? ? Hle _]; subst.
    discriminate Hle.
Qed.

Lemma subject_groups_in_first_seen_order_witness :
  Spec.marks_in_range (student_mark_manager.students student_mark_manager.seeded)
  /\ exists out,
       student_mark_manager.get_subject_wise_stats student_mark_manager.seeded
       = (out, Ok tt)
       /\ map fst (Spec.report_groups out)
          = Spec.first_encounters
              (map subject
                 (student_mark_manager.students student_mark_manager.seeded)).
Proof.
  destruct subject_groups_in_first_seen_order as (_ & Hrange & _).
  assert (Hmarks : Spec.marks_in_range
                     (student_mark_manager.students student_mark_manager.seeded)).
  { unfold Spec.marks_in_range. simpl.
    repeat constructor; apply Z.leb_le; reflexivity. }
  split; [exact Hmarks|].
  apply Hrange. exact Hmarks.
Defined.

Example subject_stats_seeded :
  student_mark_manager.get_subject_wise_stats student_mark_manager.seeded
  = ([StatsHeader;
      SubjectStats "Mathematics" (Py.float_of_Q (269 # 3)) 96 78 3;
      SubjectStats "Physics" (Py.float_of_Q (258 # 3)) 89 82 3;
      SubjectStats "Chemistry" (Py.float_of_Q (271 # 3)) 92 88 3],
     Ok tt).
Proof. reflexivity. Qed.

(** An average that overflows stops the report where it stands. *)
Example subject_stats_stopped :
  student_mark_manager.get_subject_wise_stats
    (student_mark_manager.mkManager
       [mkStudent 1 "A" "Art" 5; mkStudent 2 "B" "Math" (2 ^ 1100);
        mkStudent 3 "C" "Zoology" 1])
  = ([StatsHeader; SubjectStats "Art" 5 5 5 1], Raise OverflowError).
Proof. reflexivity. Qed.

(** The scenario of the specification: three records, two of them in Math. *)
Example scenario_three_records :
  let sms := snd (student_mark_manager.add_all student_mark_manager.init
                    [(101, "A", "Math", 95); (102, "B", "Physics", 87);
                     (103, "C", "Math", 78)]) in
  student_mark_manager.find_highest_marks sms
    = Ok ([HighestMarks (mkStudent 101 "A" "Math" 95)],
          Some (mkStudent 101 "A" "Math" 95))
  /\ student_mark_manager.calculate_average_marks sms
     = Ok ([ClassAverage 3 260 (Py.float_of_Q (260 # 3))],
           PyFloat (Py.float_of_Q (260 # 3)))
  /\ student_mark_manager.get_subject_wise_stats sms
     = ([StatsHeader;
         SubjectStats "Math" (173 # 2) 95 78 2;
         SubjectStats "Physics" 87 87 87 1],
        Ok tt).
Proof.
  cbv zeta. split; [reflexivity|]. split; [reflexivity|].
  reflexivity.
Qed.

(** * Further properties of the two programs *)

(** ** Lookup in the list *)

Section LookupMore.

Import student_mark_manager.

Lemma find_loop_In (l : list student) (roll : Z) (r : student) :
  find_loop l roll = Some r -> In r l /\ roll_no r = roll.
Proof.
  intros H. apply find_loop_Some in H.
  destruct H as (pre & post & -> & Hroll & _). split; [|exact Hroll].
  apply in_or_app. right. now left.
Qed.

Lemma find_loop_unique (l : list student) (r : student) :
  NoDup (map roll_no l) -> In r l -> find_loop l (roll_no r) = Some r.
Proof.
  induction l as [|x l' IH]; simpl; intros Hnd Hin.
  - contradiction.
  - inversion Hnd as [|? ? Hx Hnd']; subst.
    destruct Hin as [-> | Hin].
    + now rewrite Z.eqb_refl.
    + destruct (Z.eqb_spec (roll_no x) (roll_no r)) as [E | E].
      * exfalso. apply Hx. rewrite E. now apply in_map.
      * now apply IH.
Qed.

Lemma students_add_all (l : list (Z * string * string * Z)) :
  forall self : StudentMarksManager,
    add_all self l
    = (map (fun args => Added (name (Spec.record_of args))) l,
       {| students := students self ++ map Spec.record_of l |}).
Proof.
  induction l as [|[[[r n] s] m] rest IH]; intros [old]; simpl.
  - now rewrite app_nil_r.
  - rewrite IH. simpl. now rewrite <- app_assoc.
Qed.

End LookupMore.

(** X1. [find_student_by_roll_no] returns [None] exactly when no record of
    the list has the roll number; a record it returns is in the list and has
    the roll number asked for. *)
Theorem lookup_miss_and_hit :
  forall (self : student_mark_manager.StudentMarksManager) (roll : Z),
    (student_mark_manager.find_student_by_roll_no self roll = None <->
     forall r, In r (student_mark_manager.students self) -> roll_no r <> roll)
    /\ (forall r,
          student_mark_manager.find_student_by_roll_no self roll = Some r ->
          In r (student_mark_manager.students self) /\ roll_no r = roll).
Proof.
  intros self roll. unfold student_mark_manager.find_student_by_roll_no. split.
  - rewrite find_loop_None. apply Forall_forall.
  - intros r. apply find_loop_In.
Qed.

(** X2. Adding a record leaves the lookup of every other roll number as it
    was. *)
Theorem lookup_unchanged_by_other_roll_no :
  forall (self : student_mark_manager.StudentMarksManager)
         (roll : Z) (name subject : string) (marks : Z) (other : Z),
    roll <> other ->
    student_mark_manager.find_student_by_roll_no
      (snd (student_mark_manager.add_student self roll name subject marks)) other
    = student_mark_manager.find_student_by_roll_no self other.
Proof.
  intros self roll name subject marks other Hne.
  unfold student_mark_manager.find_student_by_roll_no.
  rewrite students_add_student, find_loop_app. simpl.
  destruct (Z.eqb_spec roll other) as [E | _]; [contradiction|].
  now destruct (student_mark_manager.find_loop _ other).
Qed.

Lemma lookup_unchanged_by_other_roll_no_witness :
  110 <> 105
  /\ student_mark_manager.find_student_by_roll_no
       (snd (student_mark_manager.add_student student_mark_manager.seeded
               110 "Jack Hill" "Physics" 77)) 105
     = student_mark_manager.find_student_by_roll_no student_mark_manager.seeded 105.
Proof.
  split; [discriminate|].
  apply lookup_unchanged_by_other_roll_no. discriminate.
Defined.

(** X3. The insertion loop of [main] prints one line per record and leaves
    the list extended by the records, in the order given; the count grows by
    their number. *)
Theorem add_all_appends_in_order :
  forall (self : student_mark_manager.StudentMarksManager)
         (l : list (Z * string * string * Z)),
    fst (student_mark_manager.add_all self l)
      = map (fun args => Added (name (Spec.record_of args))) l
    /\ student_mark_manager.students (snd (student_mark_manager.add_all self l))
       = student_mark_manager.students self ++ map Spec.record_of l
    /\ student_mark_manager.get_student_count
         (snd (student_mark_manager.add_all self l))
       = (student_mark_manager.get_student_count self + List.length l)%nat.
Proof.
  intros self l. rewrite students_add_all. simpl. repeat split.
  unfold student_mark_manager.get_student_count. simpl.
  now rewrite length_app, length_map.
Qed.

(** X4. When the records inserted into a new manager have pairwise distinct
    roll numbers, every one of them is found again by its roll number, and the
    lookup returns exactly that record. *)
Theorem distinct_roll_nos_round_trip :
  forall (l : list (Z * string * string * Z)) (args : Z * string * string * Z),
    NoDup (map (fun a => roll_no (Spec.record_of a)) l) ->
    In args l ->
    student_mark_manager.find_student_by_roll_no
      (snd (student_mark_manager.add_all student_mark_manager.init l))
      (roll_no (Spec.record_of args))
    = Some (Spec.record_of args).
Proof.
  intros l args Hnd Hin.
  unfold student_mark_manager.find_student_by_roll_no.
  rewrite students_add_all. simpl.
  apply find_loop_unique.
  - now rewrite map_map.
  - now apply in_map.
Qed.

Lemma distinct_roll_nos_round_trip_witness :
  NoDup (map (fun a => roll_no (Spec.record_of a))
           student_mark_manager.sample_students)
  /\ In (105, "Emma Brown", "Physics", 89) student_mark_manager.sample_students
  /\ student_mark_manager.find_student_by_roll_no
       (snd (student_mark_manager.add_all student_mark_manager.init
               student_mark_manager.sample_students))
       (roll_no (Spec.record_of (105, "Emma Brown", "Physics", 89)))
     = Some (Spec.record_of (105, "Emma Brown", "Physics", 89)).
Proof.
  assert (Hnd : NoDup (map (fun a => roll_no (Spec.record_of a))
                         student_mark_manager.sample_students)).
  { simpl. repeat constructor; simpl; intuition discriminate. }
  assert (Hin : In (105, "Emma Brown", "Physics", 89)
                  student_mark_manager.sample_students).
  { simpl. tauto. }
  split; [exact Hnd|]. split; [exact Hin|].
  apply distinct_roll_nos_round_trip; assumption.
Defined.

(** X5. [display_all_students] prints the message that no records were found
    exactly when the list is empty.  After an [add_student] it prints the
    table: the rows it would have shown before, in the same order, and the new
    record as the last row. *)
Theorem display_rows_in_insertion_order :
  forall self : student_mark_manager.StudentMarksManager,
    (student_mark_manager.display_all_students self = [Message NoRecordsFound]
     <-> student_mark_manager.get_student_count self = 0%nat)
    /\ forall (roll : Z) (name subject : string) (marks : Z),
         student_mark_manager.display_all_students
           (snd (student_mark_manager.add_student self roll name subject marks))
         = TableHeader
             :: map TableRow (student_mark_manager.students self)
             ++ [TableRow (mkStudent roll name subject marks)].
Proof.
  intros [l]. unfold student_mark_manager.display_all_students,
    student_mark_manager.get_student_count. simpl. split.
  - destruct l; simpl; split; intros H; try reflexivity; discriminate.
  - intros roll name subject marks.
    destruct l as [|x l']; simpl; [reflexivity|].
    now rewrite map_app.
Qed.

(** ** The blocks of the subject report *)

(** X6. For int marks and at most [2^1022] records, every block that
    [get_subject_wise_stats] prints is about the records of its subject: the
    count is their number, which is not zero, the highest and the lowest
    marks are marks of such records that bound all the others, and the
    average is their mean within the tolerance of the float division. *)
Theorem subject_blocks_are_right :
  forall (self : student_mark_manager.StudentMarksManager)
         (s : string) (avg : Q) (mx mn : Z) (c : nat),
    Spec.count_in_range (student_mark_manager.students self) ->
    In (SubjectStats s avg mx mn c)
       (fst (student_mark_manager.get_subject_wise_stats self)) ->
    c = List.length (Spec.marks_of s (student_mark_manager.students self))
    /\ (0 < c)%nat
    /\ In mx (Spec.marks_of s (student_mark_manager.students self))
    /\ (forall m, In m (Spec.marks_of s (student_mark_manager.students self)) ->
                  m <= mx)
    /\ In mn (Spec.marks_of s (student_mark_manager.students self))
    /\ (forall m, In m (Spec.marks_of s (student_mark_manager.students self)) ->
                  mn <= m)
    /\ (Qabs (avg - Spec.mean_of
                      (Spec.marks_of s (student_mark_manager.students self)))
        <= Spec.tolerance
           * Qabs (Spec.mean_of
                     (Spec.marks_of s (student_mark_manager.students self))))%Q.
Proof.
  intros self s avg mx mn c Hcount Hin.
  destruct (group_loop_dict (student_mark_manager.students self))
    as (d & Hloop & _ & _ & Hdict).
  rewrite (get_subject_wise_stats_eq self d Hloop) in Hin. cbn [fst] in Hin.
  destruct Hin as [Hin | Hin]; [discriminate|].
  destruct (report_loop_lines d s avg mx mn c Hin) as (v & Hv & Hvals & Hc).
  destruct (Hdict s v Hv) as [Heq Hne].
  destruct (block_values_inv v avg mx mn Hvals) as (Havg & Hmx & Hmn).
  rewrite <- Heq.
  destruct (max_spec _ _ Hmx) as [H1 H2].
  destruct (min_spec _ _ Hmn) as [H3 H4].
  split; [exact Hc|]. split.
  - subst c. destruct v; [contradiction | simpl; lia].
  - repeat split; auto.
    rewrite (truediv_mean_of v avg Havg).
    apply float_of_Q_tolerance. apply mean_of_above_subnormal; [exact Hne|].
    pose proof (marks_of_length s (student_mark_manager.students self)) as Hlen.
    rewrite <- Heq in Hlen. unfold Spec.count_in_range in Hcount. lia.
Qed.

Lemma subject_blocks_are_right_witness :
  let self := student_mark_manager.seeded in
  Spec.count_in_range (student_mark_manager.students self)
  /\ In (SubjectStats "Physics" 86 89 82 3)
        (fst (student_mark_manager.get_subject_wise_stats self))
  /\ 3%nat = List.length
               (Spec.marks_of "Physics" (student_mark_manager.students self))
  /\ (0 < 3)%nat
  /\ In 89 (Spec.marks_of "Physics" (student_mark_manager.students self))
  /\ (forall m, In m (Spec.marks_of "Physics" (student_mark_manager.students self)) ->
                m <= 89)
  /\ In 82 (Spec.marks_of "Physics" (student_mark_manager.students self))
  /\ (forall m, In m (Spec.marks_of "Physics" (student_mark_manager.students self)) ->
                82 <= m)
  /\ (Qabs (86 - Spec.mean_of
                   (Spec.marks_of "Physics" (student_mark_manager.students self)))
      <= Spec.tolerance
         * Qabs (Spec.mean_of
                   (Spec.marks_of "Physics" (student_mark_manager.students self))))%Q.
Proof.
  assert (Hcount : Spec.count_in_range
                     (student_mark_manager.students student_mark_manager.seeded)).
  { unfold Spec.count_in_range. simpl List.length.
    change (Z.of_nat 9) with 9. apply Z.leb_le. reflexivity. }
  assert (Hin : In (SubjectStats "Physics" 86 89 82 3)
                  (fst (student_mark_manager.get_subject_wise_stats
                          student_mark_manager.seeded))).
  { rewrite subject_stats_seeded. cbn [fst]. right. right. left.
    f_equal. }
  split; [exact Hcount|]. split; [exact Hin|].
  apply (subject_blocks_are_right student_mark_manager.seeded
           "Physics" 86 89 82 3 Hcount Hin).
Defined.

(** X7. For every store whose marks are at most [2^1023] in absolute value,
    the report of [get_subject_wise_stats] is printed to the end and has a
    block for the subject of every record, no block for a subject that no
    record has, and no two blocks for one subject. *)
Theorem one_block_per_subject :
  forall self : student_mark_manager.StudentMarksManager,
    Spec.marks_in_range (student_mark_manager.students self) ->
    exists out,
      student_mark_manager.get_subject_wise_stats self = (out, Ok tt)
      /\ NoDup (map fst (Spec.report_groups out))
      /\ forall s,
           (exists avg mx mn c, In (SubjectStats s avg mx mn c) out)
           <-> (exists r, In r (student_mark_manager.students self) /\ subject r = s).
Proof.
  intros self Hrange.
  destruct (get_subject_wise_stats_in_range self Hrange)
    as (d & out & Hloop & Hstats & Hgroups).
  destruct (group_loop_dict (student_mark_manager.students self))
    as (d0 & Hloop0 & Hkeys & _ & _).
  rewrite Hloop in Hloop0. injection Hloop0 as <-.
  assert (Hord : map fst (Spec.report_groups (StatsHeader :: out))
                 = Spec.first_encounters
                     (map subject (student_mark_manager.students self))).
  { cbn [Spec.report_groups]. rewrite Hgroups, <- Hkeys.
    unfold Py.keys. now rewrite map_map. }
  exists (StatsHeader :: out). split; [exact Hstats|]. split.
  - rewrite Hord. apply first_seen_NoDup.
  - intros s.
    assert (Hs : In s (map fst (Spec.report_groups (StatsHeader :: out)))
                 <-> exists r, In r (student_mark_manager.students self)
                               /\ subject r = s).
    { rewrite Hord. unfold Spec.first_encounters. rewrite first_seen_In, in_map_iff.
      simpl. split.
      - intros [(r & Hr & Hin) _]. now exists r.
      - intros (r & Hin & Hr). split; [now exists r | tauto]. }
    rewrite <- Hs, in_map_iff. split.
    + intros (avg & mx & mn & c & Hin). exists (s, c). split; [reflexivity|].
      apply report_groups_In. now exists avg, mx, mn.
    + intros ([s' c] & Hfst & Hin). simpl in Hfst. subst s'.
      apply report_groups_In in Hin. destruct Hin as (avg & mx & mn & Hin).
      now exists avg, mx, mn, c.
Qed.

Lemma one_block_per_subject_witness :
  Spec.marks_in_range (student_mark_manager.students student_mark_manager.seeded)
  /\ exists out,
       student_mark_manager.get_subject_wise_stats student_mark_manager.seeded
       = (out, Ok tt)
       /\ NoDup (map fst (Spec.report_groups out))
       /\ forall s,
            (exists avg mx mn c, In (SubjectStats s avg mx mn c) out)
            <-> (exists r,
                   In r (student_mark_manager.students student_mark_manager.seeded)
                   /\ subject r = s).
Proof.
  assert (Hmarks : Spec.marks_in_range
                     (student_mark_manager.students student_mark_manager.seeded)).
  { unfold Spec.marks_in_range. simpl.
    repeat constructor; apply Z.leb_le; reflexivity. }
  split; [exact Hmarks|].
  apply one_block_per_subject. exact Hmarks.
Defined.

(** ** The order of the records *)

Section Order.

Import student_mark_manager.

Lemma sum_marks_perm (l l' : list student) :
  Permutation l l' ->
  fold_right Z.add 0 (map marks l) = fold_right Z.add 0 (map marks l').
Proof.
  induction 1; simpl; lia.
Qed.

Lemma mean_perm (l l' : list student) :
  Permutation l l' -> Spec.mean l = Spec.mean l'.
Proof.
  intros H. unfold Spec.mean.
  now rewrite (sum_marks_perm l l' H), (Permutation_length H).
Qed.

(** Two records that both have the greatest marks of a list have the same
    marks. *)
Lemma greatest_marks_unique (l : list student) (a b : student) :
  In a l -> (forall r, In r l -> marks r <= marks a) ->
  In b l -> (forall r, In r l -> marks r <= marks b) ->
  marks a = marks b.
Proof.
  intros Ha Hla Hb Hlb. specialize (Hla b Hb). specialize (Hlb a Ha). lia.
Qed.

End Order.

(** X8. For int marks, whose sum is exact, the class average does not depend
    on the order of the records: two managers whose lists hold the same
    records, in any order, get the same result from
    [calculate_average_marks], the printed line or the [OverflowError]
    included. *)
Theorem average_independent_of_order :
  forall a b : student_mark_manager.StudentMarksManager,
    Permutation (student_mark_manager.students a) (student_mark_manager.students b) ->
    student_mark_manager.calculate_average_marks a
    = student_mark_manager.calculate_average_marks b.
Proof.
  intros a b Hperm.
  destruct (student_mark_manager.students a) as [|x la] eqn:Ha.
  - apply Permutation_nil in Hperm.
    unfold student_mark_manager.calculate_average_marks. now rewrite Ha, Hperm.
  - destruct (student_mark_manager.students b) as [|y lb] eqn:Hb.
    + apply Permutation_sym, Permutation_nil in Hperm. discriminate.
    + rewrite (calculate_average_marks_cons a x la Ha),
              (calculate_average_marks_cons b y lb Hb), Ha, Hb.
      now rewrite (sum_marks_perm _ _ Hperm), (Permutation_length Hperm).
Qed.

Lemma average_independent_of_order_witness :
  let a := student_mark_manager.mkManager
             [mkStudent 1 "A" "Math" 80; mkStudent 2 "B" "Physics" 95;
              mkStudent 3 "C" "Math" 71] in
  let b := student_mark_manager.mkManager
             [mkStudent 3 "C" "Math" 71; mkStudent 1 "A" "Math" 80;
              mkStudent 2 "B" "Physics" 95] in
  Permutation (student_mark_manager.students a) (student_mark_manager.students b)
  /\ student_mark_manager.calculate_average_marks a
     = student_mark_manager.calculate_average_marks b.
Proof.
  assert (H : Permutation
                [mkStudent 1 "A" "Math" 80; mkStudent 2 "B" "Physics" 95;
                 mkStudent 3 "C" "Math" 71]
                [mkStudent 3 "C" "Math" 71; mkStudent 1 "A" "Math" 80;
                 mkStudent 2 "B" "Physics" 95]).
  { apply Permutation_sym.
    apply (Permutation_cons_app
             [mkStudent 1 "A" "Math" 80; mkStudent 2 "B" "Physics" 95] []).
    rewrite app_nil_r. apply Permutation_refl. }
  split; [exact H|].
  apply average_independent_of_order. exact H.
Defined.

(** X9. The two programs agree on the highest marks: when the table of the
    MySQL manager holds the records of the list of the in-memory manager, in
    any order, the records that the two [find_highest_marks] return have the
    same marks, whatever row the server puts first among equal marks; and they
    are the same record when no other record has those marks. *)
Theorem highest_marks_agree :
  forall (self : student_mark_manager.StudentMarksManager)
         (order : student_mark_manager_mysql.table -> list student)
         (db : student_mark_manager_mysql.StudentMarksManagerDB)
         (t : student_mark_manager_mysql.table),
    student_mark_manager.students self <> [] ->
    Permutation (student_mark_manager.students self) t ->
    student_mark_manager_mysql.orders_by_marks_desc order ->
    student_mark_manager_mysql.connection db = Some t ->
    exists top row,
      student_mark_manager.find_highest_marks self
        = Ok ([HighestMarks top], Some top)
      /\ student_mark_manager_mysql.find_highest_marks order db
         = Ok ([HighestMarks row], Some row)
      /\ marks top = marks row
      /\ ((forall r, In r t -> marks r = marks top -> r = top) -> row = top).
Proof.
  intros self order db t Hne Hperm Hord Hconn.
  destruct (student_mark_manager.students self) as [|x rest] eqn:Hs;
    [contradiction|].
  assert (Ht : t <> []).
  { intros ->. apply Permutation_sym, Permutation_nil in Hperm. discriminate. }
  unfold student_mark_manager_mysql.find_highest_marks. rewrite Hconn.
  destruct (order t) as [|row rows] eqn:Ho;
    [exfalso; now apply (ordered_nonempty order t Hord Ht)|].
  destruct (ordered_head_max order t row rows Hord Ho) as [Hrow Hrows].
  set (top := Py.max_loop marks x rest).
  assert (Htop : In top (x :: rest)).
  { unfold top. destruct (max_loop_In marks rest x) as [-> | H];
      [now left | now right]. }
  assert (Htops : forall r, In r (x :: rest) -> marks r <= marks top).
  { intros r [<- | Hr].
    - apply max_loop_ge_best.
    - pose proof (max_loop_ge_all marks rest x) as Hall.
      rewrite Forall_forall in Hall. now apply Hall. }
  assert (Hmarks : marks top = marks row).
  { apply (greatest_marks_unique t).
    - now apply (Permutation_in _ Hperm).
    - intros r Hr. apply Htops. now apply (Permutation_in _ (Permutation_sym Hperm)).
    - exact Hrow.
    - exact Hrows. }
  exists top, row. split; [now apply find_highest_marks_cons|].
  split; [reflexivity|]. split; [exact Hmarks|].
  intros Huniq. apply Huniq; [exact Hrow | now symmetry].
Qed.

Lemma highest_marks_agree_witness :
  let l := [mkStudent 1 "A" "Math" 80; mkStudent 2 "B" "Physics" 95] in
  let t := [mkStudent 2 "B" "Physics" 95; mkStudent 1 "A" "Math" 80] in
  let self := student_mark_manager.mkManager l in
  let db := student_mark_manager_mysql.mkManagerDB (Some t) in
  student_mark_manager.students self <> []
  /\ Permutation (student_mark_manager.students self) t
  /\ student_mark_manager_mysql.orders_by_marks_desc
       student_mark_manager_mysql.stable_sort_desc
  /\ student_mark_manager_mysql.connection db = Some t
  /\ exists top row,
       student_mark_manager.find_highest_marks self
         = Ok ([HighestMarks top], Some top)
       /\ student_mark_manager_mysql.find_highest_marks
            student_mark_manager_mysql.stable_sort_desc db
          = Ok ([HighestMarks row], Some row)
       /\ marks top = marks row
       /\ ((forall r, In r t -> marks r = marks top -> r = top) -> row = top).
Proof.
  assert (Hp : Permutation
                 [mkStudent 1 "A" "Math" 80; mkStudent 2 "B" "Physics" 95]
                 [mkStudent 2 "B" "Physics" 95; mkStudent 1 "A" "Math" 80])
    by apply perm_swap.
  split; [discriminate|]. split; [exact Hp|].
  split; [exact stable_sort_desc_orders|]. split; [reflexivity|].
  apply (highest_marks_agree
           (student_mark_manager.mkManager
              [mkStudent 1 "A" "Math" 80; mkStudent 2 "B" "Physics" 95])
           student_mark_manager_mysql.stable_sort_desc
           (student_mark_manager_mysql.mkManagerDB
              (Some [mkStudent 2 "B" "Physics" 95; mkStudent 1 "A" "Math" 80]))
           [mkStudent 2 "B" "Physics" 95; mkStudent 1 "A" "Math" 80]).
  - discriminate.
  - exact Hp.
  - exact stable_sort_desc_orders.
  - reflexivity.
Defined.

(** ** The table and its unique roll numbers *)

(** Concrete values that fit the columns. *)
Ltac solve_fits_columns :=
  repeat (apply Forall_cons; [|]);
  try apply Forall_nil;
  unfold Spec.fits_columns; cbn; repeat split; lia.

Section TableMore.

Import student_mark_manager_mysql.

Lemma execute_insert_cases (t : table) (values : student) :
  (execute_insert t values = inl (DuplicateEntry (roll_no values))
   /\ exists row, In row t /\ roll_no row = roll_no values)
  \/ (execute_insert t values = inr (t ++ [values])
      /\ forall row, In row t -> roll_no row <> roll_no values).
Proof.
  unfold execute_insert.
  destruct (existsb (fun row => roll_no row =? roll_no values) t) eqn:E.
  - left. split; [reflexivity|].
    apply existsb_exists in E. destruct E as (row & Hin & Heq).
    exists row. split; [exact Hin | now apply Z.eqb_eq].
  - right. split; [reflexivity|].
    intros row Hin Heq.
    assert (H : existsb (fun row => roll_no row =? roll_no values) t = true).
    { apply existsb_exists. exists row. split; [exact Hin | now apply Z.eqb_eq]. }
    congruence.
Qed.

Lemma NoDup_roll_no_snoc (t : table) (values : student) :
  NoDup (map roll_no t) ->
  (forall row, In row t -> roll_no row <> roll_no values) ->
  NoDup (map roll_no (t ++ [values])).
Proof.
  intros Hnd Hfresh. rewrite map_app. simpl.
  apply NoDup_app.
  - exact Hnd.
  - repeat constructor. intros [].
  - intros k Hk [<- | []].
    apply in_map_iff in Hk. destruct Hk as (row & Heq & Hin).
    now apply (Hfresh row Hin).
Qed.

End TableMore.

(** X10. On a connected MySQL manager, for values that fit the columns of
    the table, [add_student] raises nothing, and it returns [True] exactly
    when no row of the table has the roll number: then the row is appended
    after the rows the table had; otherwise the manager is left as it was.
    Either way the roll numbers of the table stay pairwise distinct. *)
Theorem add_student_db_outcome :
  forall (self : student_mark_manager_mysql.StudentMarksManagerDB)
         (t : student_mark_manager_mysql.table)
         (roll : Z) (name subject : string) (marks : Z),
    student_mark_manager_mysql.connection self = Some t ->
    Spec.fits_columns (mkStudent roll name subject marks) ->
    exists out ok self',
      student_mark_manager_mysql.add_student self roll name subject marks
        = Ok (out, ok, self')
      /\ (ok = true <-> forall row, In row t -> roll_no row <> roll)
      /\ (ok = true ->
          out = [Added name]
          /\ student_mark_manager_mysql.connection self'
             = Some (t ++ [mkStudent roll name subject marks]))
      /\ (ok = false -> self' = self)
      /\ (NoDup (map roll_no t) ->
          exists t', student_mark_manager_mysql.connection self' = Some t'
                     /\ NoDup (map roll_no t')).
Proof.
  intros self t roll name subject marks Hconn _.
  unfold student_mark_manager_mysql.add_student. rewrite Hconn.
  destruct (execute_insert_cases t (mkStudent roll name subject marks))
    as [[-> (row & Hin & Hroll)] | [-> Hfresh]]; simpl in *.
  - eexists. eexists. eexists. split; [reflexivity|]. repeat split.
    + discriminate.
    + intros H. now destruct (H row Hin).
    + discriminate.
    + discriminate.
    + intros Hnd. now exists t.
  - eexists. eexists. eexists. split; [reflexivity|]. repeat split.
    + intros _. exact Hfresh.
    + discriminate.
    + intros Hnd. eexists. split; [reflexivity|].
      now apply (NoDup_roll_no_snoc t (mkStudent roll name subject marks)).
Qed.

Lemma add_student_db_outcome_witness :
  let t := [mkStudent 101 "Alice Johnson" "Mathematics" 95] in
  let self := student_mark_manager_mysql.mkManagerDB (Some t) in
  student_mark_manager_mysql.connection self = Some t
  /\ Spec.fits_columns (mkStudent 102 "Bob Smith" "Physics" 87)
  /\ exists out ok self',
       student_mark_manager_mysql.add_student self 102 "Bob Smith" "Physics" 87
         = Ok (out, ok, self')
       /\ (ok = true <-> forall row, In row t -> roll_no row <> 102)
       /\ (ok = true ->
           out = [Added "Bob Smith"]
           /\ student_mark_manager_mysql.connection self'
              = Some (t ++ [mkStudent 102 "Bob Smith" "Physics" 87]))
       /\ (ok = false -> self' = self)
       /\ (NoDup (map roll_no t) ->
           exists t', student_mark_manager_mysql.connection self' = Some t'
                      /\ NoDup (map roll_no t')).
Proof.
  split; [reflexivity|]. split; [solve_fits_columns|].
  apply (add_student_db_outcome
           (student_mark_manager_mysql.mkManagerDB
              (Some [mkStudent 101 "Alice Johnson" "Mathematics" 95]))
           [mkStudent 101 "Alice Johnson" "Mathematics" 95]).
  - reflexivity.
  - solve_fits_columns.
Defined.

(** ** The insertion loop of the MySQL program *)

Section SeedingLoop.

Import student_mark_manager_mysql.

Lemma add_all_cons (self : StudentMarksManagerDB) (c : Z)
    (r : Z) (n s : string) (m : Z) (rest : list (Z * string * string * Z)) :
  add_all self c ((r, n, s, m) :: rest)
  = (added <- add_student self r n s m ;;
     let '(out, ok, sms_db) := added in
     looped <- add_all sms_db (if ok : bool then c + 1 else c) rest ;;
     let '(out', success_count, sms_db) := looped in
     Ok (out ++ out', success_count, sms_db)).
Proof. reflexivity. Qed.

Lemma add_all_spec (l : list (Z * string * string * Z)) :
  forall (self : StudentMarksManagerDB) (t : table) (c : Z),
    connection self = Some t ->
    exists out c' self' added,
      add_all self c l = Ok (out, c', self')
      /\ connection self' = Some (t ++ added)
      /\ c' = c + Z.of_nat (List.length added)
      /\ List.length out = List.length l
      /\ incl added (map Spec.record_of l)
      /\ (forall args, In args l ->
            exists row, In row (t ++ added)
                        /\ roll_no row = roll_no (Spec.record_of args))
      /\ (NoDup (map roll_no t) -> NoDup (map roll_no (t ++ added))).
Proof.
  induction l as [|[[[r n] s] m] rest IH]; intros self t c Hconn.
  - exists [], c, self, []. simpl. rewrite app_nil_r.
    repeat split; auto; try lia.
    intros x [].
  - rewrite add_all_cons. unfold add_student. rewrite Hconn.
    destruct (execute_insert_cases t (mkStudent r n s m))
      as [[-> (row & Hin & Hroll)] | [-> Hfresh]]; cbn [bind]; cbv beta iota zeta.
    + destruct (IH self t c Hconn)
        as (out & c' & self' & added & Hloop & Hc & Hcount & Hlen & Hincl & Hall & Hnd).
      exists (ErrorAdding n (DuplicateEntry r) :: out), c', self', added.
      rewrite Hloop. cbn [bind]; cbv beta iota zeta.
      repeat split; auto.
      * simpl. now rewrite Hlen.
      * intros x Hx. right. now apply Hincl.
      * intros args [<- | Hargs]; [|now apply Hall].
        exists row. split; [apply in_or_app; now left | exact Hroll].
    + destruct (IH {| connection := Some (t ++ [mkStudent r n s m]) |}
                  (t ++ [mkStudent r n s m]) (c + 1) eq_refl)
        as (out & c' & self' & added & Hloop & Hc & Hcount & Hlen & Hincl & Hall & Hnd).
      exists (Added n :: out), c', self', (mkStudent r n s m :: added).
      unfold table in *. rewrite Hloop. cbn [bind]; cbv beta iota zeta.
      rewrite <- app_assoc in Hc, Hall, Hnd. simpl in Hc, Hall, Hnd.
      repeat split; auto.
      * rewrite Hcount. simpl List.length. lia.
      * simpl. now rewrite Hlen.
      * intros x [<- | Hx]; [now left | right; now apply Hincl].
      * intros args [<- | Hargs]; [|now apply Hall].
        exists (mkStudent r n s m). split; [|reflexivity].
        apply in_or_app. right. now left.
      * intros Hnd0. apply Hnd.
        now apply (NoDup_roll_no_snoc t (mkStudent r n s m)).
Qed.

(** When every roll number is in the table already, every insert is
    rejected and nothing changes. *)
Lemma add_all_rejected (l : list (Z * string * string * Z)) :
  forall (self : StudentMarksManagerDB) (t : table) (c : Z),
    connection self = Some t ->
    (forall args, In args l ->
       exists row, In row t /\ roll_no row = roll_no (Spec.record_of args)) ->
    add_all self c l
    = Ok (map (fun args => ErrorAdding (name (Spec.record_of args))
                             (DuplicateEntry (roll_no (Spec.record_of args)))) l,
          c, self).
Proof.
  induction l as [|[[[r n] s] m] rest IH]; intros self t c Hconn Hall.
  - reflexivity.
  - rewrite add_all_cons. unfold add_student. rewrite Hconn.
    destruct (Hall (r, n, s, m) (or_introl eq_refl)) as (row & Hin & Hroll).
    rewrite (execute_insert_duplicate t row (mkStudent r n s m) Hin Hroll).
    cbn [bind]; cbv beta iota zeta. rewrite (IH self t c Hconn).
    + reflexivity.
    + intros args Hargs. apply Hall. now right.
Qed.

(** When the roll numbers are new and pairwise distinct, every insert is
    accepted. *)
Lemma add_all_accepted (l : list (Z * string * string * Z)) :
  forall (self : StudentMarksManagerDB) (t : table) (c : Z),
    connection self = Some t ->
    NoDup (map (fun a => roll_no (Spec.record_of a)) l) ->
    (forall args row, In args l -> In row t ->
       roll_no row <> roll_no (Spec.record_of args)) ->
    exists self',
      add_all self c l
      = Ok (map (fun args => Added (name (Spec.record_of args))) l,
            c + Z.of_nat (List.length l), self')
      /\ connection self' = Some (t ++ map Spec.record_of l).
Proof.
  induction l as [|[[[r n] s] m] rest IH]; intros self t c Hconn Hnd Hfresh.
  - exists self. simpl. now rewrite Z.add_0_r, app_nil_r.
  - rewrite add_all_cons. unfold add_student. rewrite Hconn.
    rewrite (execute_insert_fresh t (mkStudent r n s m)).
    + cbn [bind]; cbv beta iota zeta. inversion Hnd as [|? ? Hr Hnd']; subst.
      destruct (IH {| connection := Some (t ++ [mkStudent r n s m]) |}
                  (t ++ [mkStudent r n s m]) (c + 1) eq_refl Hnd')
        as (self' & Hloop & Hc).
      * intros args row Hargs Hrow. apply in_app_or in Hrow.
        destruct Hrow as [Hrow | [<- | []]].
        -- apply Hfresh; [now right | exact Hrow].
        -- simpl. intros Heq. apply Hr. rewrite Heq.
           now apply (in_map (fun a => roll_no (Spec.record_of a))).
      * exists self'. unfold table in *. rewrite Hloop.
        cbn [bind]; cbv beta iota zeta. split.
        -- f_equal. f_equal. f_equal. simpl List.length. lia.
        -- rewrite Hc. simpl. now rewrite <- app_assoc.
    + intros row Hrow. apply (Hfresh (r, n, s, m) row); [now left | exact Hrow].
Qed.

End SeedingLoop.

(** X11. On a connected MySQL manager, for records that fit the columns of
    the table, the insertion loop of [main] raises nothing and prints one line
    per record, so a rejected insert does not stop the ones after it.  The
    table keeps its rows and gets the accepted records after them;
    [success_count] grows by the number of rows added; afterwards every roll
    number of the loop is in the table; and roll numbers that were pairwise
    distinct in the table stay so. *)
Theorem seeding_loop_outcome :
  forall (self : student_mark_manager_mysql.StudentMarksManagerDB)
         (t : student_mark_manager_mysql.table) (c : Z)
         (l : list (Z * string * string * Z)),
    student_mark_manager_mysql.connection self = Some t ->
    Forall Spec.fits_columns (map Spec.record_of l) ->
    exists out c' self' added,
      student_mark_manager_mysql.add_all self c l = Ok (out, c', self')
      /\ student_mark_manager_mysql.connection self' = Some (t ++ added)
      /\ c' = c + Z.of_nat (List.length added)
      /\ List.length out = List.length l
      /\ incl added (map Spec.record_of l)
      /\ (forall args, In args l ->
            exists row, In row (t ++ added)
                        /\ roll_no row = roll_no (Spec.record_of args))
      /\ (NoDup (map roll_no t) -> NoDup (map roll_no (t ++ added))).
Proof.
  intros self t c l Hconn _. now apply add_all_spec.
Qed.

Lemma seeding_loop_outcome_witness :
  let t := [mkStudent 102 "Bob Smith" "Physics" 87] in
  let self := student_mark_manager_mysql.mkManagerDB (Some t) in
  let l := [(101, "Alice Johnson", "Mathematics", 95);
            (102, "Robert Smith", "Physics", 90);
            (103, "Carol Davis", "Chemistry", 92)] in
  student_mark_manager_mysql.connection self = Some t
  /\ Forall Spec.fits_columns (map Spec.record_of l)
  /\ exists out c' self' added,
       student_mark_manager_mysql.add_all self 0 l = Ok (out, c', self')
       /\ student_mark_manager_mysql.connection self' = Some (t ++ added)
       /\ c' = 0 + Z.of_nat (List.length added)
       /\ List.length out = List.length l
       /\ incl added (map Spec.record_of l)
       /\ (forall args, In args l ->
             exists row, In row (t ++ added)
                         /\ roll_no row = roll_no (Spec.record_of args))
       /\ (NoDup (map roll_no t) -> NoDup (map roll_no (t ++ added))).
Proof.
  split; [reflexivity|]. split; [solve_fits_columns|].
  apply (seeding_loop_outcome
           (student_mark_manager_mysql.mkManagerDB
              (Some [mkStudent 102 "Bob Smith" "Physics" 87]))
           [mkStudent 102 "Bob Smith" "Physics" 87]).
  - reflexivity.
  - solve_fits_columns.
Defined.

Example seeding_loop_with_a_duplicate :
  student_mark_manager_mysql.add_all
    (student_mark_manager_mysql.mkManagerDB
       (Some [mkStudent 102 "Bob Smith" "Physics" 87])) 0
    [(101, "Alice Johnson", "Mathematics", 95);
     (102, "Robert Smith", "Physics", 90);
     (103, "Carol Davis", "Chemistry", 92)]
  = Ok ([Added "Alice Johnson";
         ErrorAdding "Robert Smith" (DuplicateEntry 102);
         Added "Carol Davis"],
        2,
        student_mark_manager_mysql.mkManagerDB
          (Some [mkStudent 102 "Bob Smith" "Physics" 87;
                 mkStudent 101 "Alice Johnson" "Mathematics" 95;
                 mkStudent 103 "Carol Davis" "Chemistry" 92])).
Proof. reflexivity. Qed.

(** X12. For records that fit the columns of the table, running the
    insertion loop a second time over the same records adds nothing: every
    insert is rejected as a duplicate, [success_count] stays where it started
    and the manager is left as the first run left it. *)
Theorem seeding_twice_adds_nothing :
  forall (self : student_mark_manager_mysql.StudentMarksManagerDB)
         (t : student_mark_manager_mysql.table) (c : Z)
         (l : list (Z * string * string * Z)),
    student_mark_manager_mysql.connection self = Some t ->
    Forall Spec.fits_columns (map Spec.record_of l) ->
    exists out c' self',
      student_mark_manager_mysql.add_all self c l = Ok (out, c', self')
      /\ forall c2,
           student_mark_manager_mysql.add_all self' c2 l
           = Ok (map (fun args =>
                        ErrorAdding (name (Spec.record_of args))
                          (DuplicateEntry (roll_no (Spec.record_of args)))) l,
                 c2, self').
Proof.
  intros self t c l Hconn _.
  destruct (add_all_spec l self t c Hconn)
    as (out & c' & self' & added & Hloop & Hc & _ & _ & _ & Hall & _).
  exists out, c', self'. split; [exact Hloop|].
  intros c2. now apply (add_all_rejected l self' (t ++ added) c2).
Qed.

Lemma seeding_twice_adds_nothing_witness :
  let self := student_mark_manager_mysql.mkManagerDB (Some []) in
  student_mark_manager_mysql.connection self = Some []
  /\ Forall Spec.fits_columns
            (map Spec.record_of student_mark_manager.sample_students)
  /\ exists out c' self',
       student_mark_manager_mysql.add_all self 0
         student_mark_manager.sample_students = Ok (out, c', self')
       /\ forall c2,
            student_mark_manager_mysql.add_all self' c2
              student_mark_manager.sample_students
            = Ok (map (fun args =>
                         ErrorAdding (name (Spec.record_of args))
                           (DuplicateEntry (roll_no (Spec.record_of args))))
                    student_mark_manager.sample_students,
                  c2, self').
Proof.
  split; [reflexivity|]. split; [solve_fits_columns|].
  apply (seeding_twice_adds_nothing
           (student_mark_manager_mysql.mkManagerDB (Some [])) []).
  - reflexivity.
  - solve_fits_columns.
Defined.

(** X13. When the records fit the columns of the table and have roll
    numbers that are pairwise distinct and not in the store yet, the two
    programs do the same: starting from the same records, the insertion loop
    of the MySQL program prints the lines of the in-memory loop, counts every
    record in [success_count], and leaves in the table the list that the
    in-memory manager holds. *)
Theorem distinct_roll_nos_same_store :
  forall (self : student_mark_manager.StudentMarksManager)
         (db : student_mark_manager_mysql.StudentMarksManagerDB) (c : Z)
         (l : list (Z * string * string * Z)),
    student_mark_manager_mysql.connection db
      = Some (student_mark_manager.students self) ->
    Forall Spec.fits_columns (map Spec.record_of l) ->
    NoDup (map (fun a => roll_no (Spec.record_of a)) l) ->
    (forall args row, In args l -> In row (student_mark_manager.students self) ->
       roll_no row <> roll_no (Spec.record_of args)) ->
    exists db',
      student_mark_manager_mysql.add_all db c l
      = Ok (fst (student_mark_manager.add_all self l),
            c + Z.of_nat (List.length l), db')
      /\ student_mark_manager_mysql.connection db'
         = Some (student_mark_manager.students
                   (snd (student_mark_manager.add_all self l))).
Proof.
  intros self db c l Hconn _ Hnd Hfresh.
  rewrite students_add_all. simpl.
  now apply add_all_accepted.
Qed.

Lemma distinct_roll_nos_same_store_witness :
  let self := student_mark_manager.init in
  let db := student_mark_manager_mysql.mkManagerDB (Some []) in
  let l := student_mark_manager.sample_students in
  student_mark_manager_mysql.connection db
    = Some (student_mark_manager.students self)
  /\ Forall Spec.fits_columns (map Spec.record_of l)
  /\ NoDup (map (fun a => roll_no (Spec.record_of a)) l)
  /\ (forall args row, In args l -> In row (student_mark_manager.students self) ->
        roll_no row <> roll_no (Spec.record_of args))
  /\ exists db',
       student_mark_manager_mysql.add_all db 0 l
       = Ok (fst (student_mark_manager.add_all self l),
             0 + Z.of_nat (List.length l), db')
       /\ student_mark_manager_mysql.connection db'
          = Some (student_mark_manager.students
                    (snd (student_mark_manager.add_all self l))).
Proof.
  assert (Hnd : NoDup (map (fun a => roll_no (Spec.record_of a))
                         student_mark_manager.sample_students)).
  { simpl. repeat constructor; simpl; intuition discriminate. }
  assert (Hfresh : forall args row,
             In args student_mark_manager.sample_students ->
             In row (student_mark_manager.students student_mark_manager.init) ->
             roll_no row <> roll_no (Spec.record_of args)).
  { intros args row _ []. }
  split; [reflexivity|]. split; [solve_fits_columns|].
  split; [exact Hnd|]. split; [exact Hfresh|].
  apply (distinct_roll_nos_same_store student_mark_manager.init
           (student_mark_manager_mysql.mkManagerDB (Some []))).
  - reflexivity.
  - solve_fits_columns.
  - exact Hnd.
  - exact Hfresh.
Defined.

(** ** The table as the MySQL program displays it *)

Section DisplayRows.

Import student_mark_manager_mysql.

Lemma insert_asc_perm (r : student) (l : list student) :
  Permutation (r :: l) (insert_asc r l).
Proof.
  induction l as [|x l' IH]; simpl.
  - apply Permutation_refl.
  - destruct (roll_no r <=? roll_no x).
    + apply Permutation_refl.
    + eapply perm_trans; [apply perm_swap|]. now apply perm_skip.
Qed.

Lemma insert_asc_sorted (r : student) (l : list student) :
  StronglySorted (fun a b => roll_no a <= roll_no b) l ->
  StronglySorted (fun a b => roll_no a <= roll_no b) (insert_asc r l).
Proof.
  induction 1 as [|x l' Hs IH Hx]; simpl.
  - repeat constructor.
  - destruct (Z.leb_spec (roll_no r) (roll_no x)) as [E | E].
    + constructor; [now constructor|].
      constructor; [exact E|].
      rewrite Forall_forall in Hx |- *. intros y Hy.
      specialize (Hx y Hy). lia.
    + constructor; [exact IH|].
      rewrite Forall_forall in Hx |- *. intros y Hy.
      apply (Permutation_in _ (Permutation_sym (insert_asc_perm r l'))) in Hy.
      destruct Hy as [<- | Hy]; [lia | now apply Hx].
Qed.

Lemma sort_asc_orders : orders_by_roll_no sort_asc.
Proof.
  intros t. unfold sort_asc.
  induction t as [|r t [IHp IHs]]; simpl.
  - split; constructor.
  - split.
    + eapply perm_trans; [apply perm_skip, IHp | apply insert_asc_perm].
    + now apply insert_asc_sorted.
Qed.

(** Rows in the order of their roll numbers, no two of them with the same
    roll number, are in strictly increasing order. *)
Lemma sorted_distinct_strict (l : list student) :
  StronglySorted (fun a b => roll_no a <= roll_no b) l ->
  NoDup (map roll_no l) ->
  StronglySorted (fun a b => roll_no a < roll_no b) l.
Proof.
  induction 1 as [|x l' Hs IH Hx]; simpl; intros Hnd.
  - constructor.
  - inversion Hnd as [|? ? Hnotin Hnd']; subst.
    constructor; [now apply IH|].
    rewrite Forall_forall in Hx |- *. intros y Hy.
    specialize (Hx y Hy).
    assert (roll_no x <> roll_no y).
    { intros Heq. apply Hnotin. rewrite Heq. now apply in_map. }
    lia.
Qed.

(** There is one way only to put rows in strictly increasing order. *)
Lemma strict_order_unique (l1 : list student) : forall l2,
  StronglySorted (fun a b => roll_no a < roll_no b) l1 ->
  StronglySorted (fun a b => roll_no a < roll_no b) l2 ->
  Permutation l1 l2 ->
  l1 = l2.
Proof.
  induction l1 as [|a l1' IH]; intros l2 Hs1 Hs2 Hperm.
  - apply Permutation_nil in Hperm. now subst.
  - destruct l2 as [|b l2'].
    + apply Permutation_sym, Permutation_nil in Hperm. discriminate.
    + inversion Hs1 as [|? ? Hs1' Ha]; subst.
      inversion Hs2 as [|? ? Hs2' Hb]; subst.
      rewrite Forall_forall in Ha, Hb.
      assert (Hab : a = b).
      { assert (Hin1 : In a (b :: l2')) by (apply (Permutation_in _ Hperm); now left).
        assert (Hin2 : In b (a :: l1'))
          by (apply (Permutation_in _ (Permutation_sym Hperm)); now left).
        destruct Hin1 as [<- | Hin1]; [reflexivity|].
        destruct Hin2 as [<- | Hin2]; [reflexivity|].
        specialize (Ha b Hin2). specialize (Hb a Hin1). lia. }
      subst b. f_equal. apply IH; auto.
      now apply Permutation_cons_inv in Hperm.
Qed.

Lemma NoDup_roll_no_perm (t rows : list student) :
  Permutation t rows -> NoDup (map roll_no t) -> NoDup (map roll_no rows).
Proof.
  intros Hperm. apply Permutation_NoDup. now apply Permutation_map.
Qed.

(** Whatever order the server gives to rows with equal keys, with distinct
    roll numbers the rows of [ORDER BY roll_no] are those of the insertion
    sort. *)
Lemma ordered_rows_unique (order : table -> list student) (t : table) :
  orders_by_roll_no order -> NoDup (map roll_no t) -> order t = sort_asc t.
Proof.
  intros Hord Hnd.
  destruct (Hord t) as [Hp1 Hs1]. destruct (sort_asc_orders t) as [Hp2 Hs2].
  apply strict_order_unique.
  - apply sorted_distinct_strict; [exact Hs1 | now apply (NoDup_roll_no_perm t)].
  - apply sorted_distinct_strict; [exact Hs2 | now apply (NoDup_roll_no_perm t)].
  - eapply perm_trans; [apply Permutation_sym, Hp1 | exact Hp2].
Qed.

End DisplayRows.

(** X14. On a connected MySQL manager whose table has pairwise distinct roll
    numbers, as the UNIQUE constraint keeps them, [display_all_students]
    prints the message that no records were found when the table is empty,
    and otherwise the table with every row once, in strictly increasing order
    of the roll numbers, whatever the order of insertion; the server has no
    choice in what is shown. *)
Theorem display_db_in_roll_no_order :
  forall (order : student_mark_manager_mysql.table -> list student)
         (self : student_mark_manager_mysql.StudentMarksManagerDB)
         (t : student_mark_manager_mysql.table),
    student_mark_manager_mysql.orders_by_roll_no order ->
    student_mark_manager_mysql.connection self = Some t ->
    NoDup (map roll_no t) ->
    (t = [] ->
     student_mark_manager_mysql.display_all_students order self
     = Ok [Message NoRecordsFound])
    /\ (t <> [] ->
        student_mark_manager_mysql.display_all_students order self
        = Ok (TableHeader
                :: map TableRow (student_mark_manager_mysql.sort_asc t)))
    /\ Permutation t (student_mark_manager_mysql.sort_asc t)
    /\ StronglySorted (fun a b => roll_no a < roll_no b)
         (student_mark_manager_mysql.sort_asc t).
Proof.
  intros order self t Hord Hconn Hnd.
  unfold student_mark_manager_mysql.display_all_students. rewrite Hconn.
  rewrite (ordered_rows_unique order t Hord Hnd).
  destruct (sort_asc_orders t) as [Hperm Hsorted].
  split; [|split; [|split]].
  - intros ->. reflexivity.
  - intros Hne.
    destruct (student_mark_manager_mysql.sort_asc t) as [|row rows] eqn:Hs;
      [|reflexivity].
    apply Permutation_sym, Permutation_nil in Hperm. contradiction.
  - exact Hperm.
  - apply sorted_distinct_strict; [exact Hsorted|].
    now apply (NoDup_roll_no_perm t).
Qed.

Lemma display_db_in_roll_no_order_witness :
  let t := [mkStudent 103 "Carol Davis" "Chemistry" 92;
            mkStudent 101 "Alice Johnson" "Mathematics" 95;
            mkStudent 102 "Bob Smith" "Physics" 87] in
  let self := student_mark_manager_mysql.mkManagerDB (Some t) in
  student_mark_manager_mysql.orders_by_roll_no student_mark_manager_mysql.sort_asc
  /\ student_mark_manager_mysql.connection self = Some t
  /\ NoDup (map roll_no t)
  /\ (t = [] ->
      student_mark_manager_mysql.display_all_students
        student_mark_manager_mysql.sort_asc self
      = Ok [Message NoRecordsFound])
  /\ (t <> [] ->
      student_mark_manager_mysql.display_all_students
        student_mark_manager_mysql.sort_asc self
      = Ok (TableHeader
              :: map TableRow (student_mark_manager_mysql.sort_asc t)))
  /\ Permutation t (student_mark_manager_mysql.sort_asc t)
  /\ StronglySorted (fun a b => roll_no a < roll_no b)
       (student_mark_manager_mysql.sort_asc t).
Proof.
  assert (Hnd : NoDup (map roll_no
                         [mkStudent 103 "Carol Davis" "Chemistry" 92;
                          mkStudent 101 "Alice Johnson" "Mathematics" 95;
                          mkStudent 102 "Bob Smith" "Physics" 87])).
  { simpl. repeat constructor; simpl; intuition discriminate. }
  split; [exact sort_asc_orders|]. split; [reflexivity|]. split; [exact Hnd|].
  apply (display_db_in_roll_no_order student_mark_manager_mysql.sort_asc
           (student_mark_manager_mysql.mkManagerDB
              (Some [mkStudent 103 "Carol Davis" "Chemistry" 92;
                     mkStudent 101 "Alice Johnson" "Mathematics" 95;
                     mkStudent 102 "Bob Smith" "Physics" 87]))).
  - exact sort_asc_orders.
  - reflexivity.
  - exact Hnd.
Defined.

Example display_db_sorted :
  student_mark_manager_mysql.display_all_students
    student_mark_manager_mysql.sort_asc
    (student_mark_manager_mysql.mkManagerDB
       (Some [mkStudent 103 "Carol Davis" "Chemistry" 92;
              mkStudent 101 "Alice Johnson" "Mathematics" 95;
              mkStudent 102 "Bob Smith" "Physics" 87]))
  = Ok [TableHeader;
        TableRow (mkStudent 101 "Alice Johnson" "Mathematics" 95);
        TableRow (mkStudent 102 "Bob Smith" "Physics" 87);
        TableRow (mkStudent 103 "Carol Davis" "Chemistry" 92)].
Proof. reflexivity. Qed.

(** X15. On a connected MySQL manager [find_highest_marks] returns [None]
    exactly when the table has no row, whatever the server does with
    [ORDER BY marks DESC]; it then prints the message that no records were
    found, and nothing else. *)
Theorem highest_db_none_iff_empty :
  forall (order : student_mark_manager_mysql.table -> list student)
         (self : student_mark_manager_mysql.StudentMarksManagerDB)
         (t : student_mark_manager_mysql.table),
    student_mark_manager_mysql.orders_by_marks_desc order ->
    student_mark_manager_mysql.connection self = Some t ->
    ((exists out,
        student_mark_manager_mysql.find_highest_marks order self = Ok (out, None))
     <-> t = [])
    /\ (t = [] ->
        student_mark_manager_mysql.find_highest_marks order self
        = Ok ([NoRecordsFound], None)).
Proof.
  intros order self t Hord Hconn.
  unfold student_mark_manager_mysql.find_highest_marks. rewrite Hconn.
  destruct (Hord t) as [Hperm _].
  destruct (order t) as [|row rows] eqn:Ho.
  - apply Permutation_sym, Permutation_nil in Hperm. subst t.
    split; [|reflexivity]. split; [reflexivity|].
    intros _. now exists [NoRecordsFound].
  - assert (Ht : t <> []).
    { intros ->. apply Permutation_nil in Hperm. discriminate. }
    split; [|contradiction]. split.
    + intros (out & H). discriminate.
    + contradiction.
Qed.

Lemma highest_db_none_iff_empty_witness :
  let self := student_mark_manager_mysql.mkManagerDB (Some []) in
  student_mark_manager_mysql.orders_by_marks_desc
    student_mark_manager_mysql.stable_sort_desc
  /\ student_mark_manager_mysql.connection self = Some []
  /\ ((exists out,
         student_mark_manager_mysql.find_highest_marks
           student_mark_manager_mysql.stable_sort_desc self = Ok (out, None))
      <-> @nil student = [])
  /\ (@nil student = [] ->
      student_mark_manager_mysql.find_highest_marks
        student_mark_manager_mysql.stable_sort_desc self
      = Ok ([NoRecordsFound], None)).
Proof.
  split; [exact stable_sort_desc_orders|]. split; [reflexivity|].
  apply (highest_db_none_iff_empty student_mark_manager_mysql.stable_sort_desc
           (student_mark_manager_mysql.mkManagerDB (Some [])) []).
  - exact stable_sort_desc_orders.
  - reflexivity.
Defined.
